(** * MechanicalSystem.py: mechanical systems as first-order ODE systems

    A shallow embedding of [src/MechanicalSystem.py]: the class hierarchy
    [MechanicalSystem] / [SpringMassDamper] / [SimplePendulum] /
    [RotationalInertia], their [equations] methods and [simulate].

    Numbers are IEEE-754 binary64 values ([PrimFloat.float]), which is what
    both Python's [float] and NumPy's [float64] are.  Python exceptions are
    values of a sum type.  Of the library routines the code calls,
    [np.linspace] is written out with the float64 arithmetic NumPy performs,
    while [scipy.integrate.odeint] and [np.sin] are parameters: what is
    proved about [simulate] holds for every solver that meets the stated
    contract. *)

From Stdlib Require Import List ZArith Lia Bool PeanoNat FunctionalExtensionality.
From Stdlib Require Import Floats.
From Stdlib Require String.
Import ListNotations.
Import String.StringSyntax.
Delimit Scope string_scope with string.

Set Implicit Arguments.

(** ** Exceptions and the error monad *)

(** The exception classes the modelled code can raise.  [ValueError] is what
    tuple unpacking raises on a sequence of the wrong length,
    [ZeroDivisionError] what [/] raises on two Python floats,
    [NotImplementedError] is raised by the base class, and [RuntimeError]
    stands for what [odeint] reports when the callback returns an array of
    the wrong size. *)
Inductive exception : Type :=
| NotImplementedError
| ZeroDivisionError
| ValueError
| RuntimeError.

Inductive result (A : Type) : Type :=
| Ok (a : A)
| Raise (e : exception).

Arguments Ok {A} a.
Arguments Raise {A} e.

Definition bind {A B : Type} (r : result A) (k : A -> result B) : result B :=
  match r with
  | Ok a => k a
  | Raise e => Raise e
  end.

Declare Scope py_scope.
Delimit Scope py_scope with py.
Notation "x <- c ;; k" := (bind c (fun x => k))
  (at level 61, c at next level, right associativity) : py_scope.
Open Scope py_scope.

(** ** Python and NumPy scalars *)

(** A Python [float] and a NumPy [float64] hold the same 64 bits but differ
    in what [/] does with a zero divisor: Python raises, NumPy returns an
    infinity or a NaN.  An operation with a NumPy operand is a NumPy
    operation and gives a NumPy scalar. *)
Inductive scalar : Type :=
| PyFloat (x : float)
| NpFloat64 (x : float).

Definition value (a : scalar) : float :=
  match a with
  | PyFloat x => x
  | NpFloat64 x => x
  end.

(** [x == 0] on floats: true for both zeros, false for NaN. *)
Definition is_zero (x : float) : bool := PrimFloat.eqb x 0%float.

Definition py_neg (a : scalar) : scalar :=
  match a with
  | PyFloat x => PyFloat (- x)
  | NpFloat64 x => NpFloat64 (- x)
  end.

Definition py_mul (a b : scalar) : scalar :=
  match a, b with
  | PyFloat x, PyFloat y => PyFloat (x * y)
  | _, _ => NpFloat64 (value a * value b)
  end.

Definition py_sub (a b : scalar) : scalar :=
  match a, b with
  | PyFloat x, PyFloat y => PyFloat (x - y)
  | _, _ => NpFloat64 (value a - value b)
  end.

Definition py_truediv (a b : scalar) : result scalar :=
  match a, b with
  | PyFloat x, PyFloat y =>
      if is_zero y then Raise ZeroDivisionError else Ok (PyFloat (x / y))
  | _, _ => Ok (NpFloat64 (value a / value b))
  end.

(** ** The class hierarchy *)

(** The dynamic class of an instance together with the attributes the
    subclass constructor adds.  The physical parameters are Python floats,
    as in the driver script. *)
Inductive model : Type :=
| BaseModel
| SpringMassDamperModel (m c k : float)
| SimplePendulumModel (l g : float)
| RotationalInertiaModel (I' torque : float).

(** An instance: the two attributes set by [MechanicalSystem.__init__] and
    the subclass part.  [time_span] is the number handed to [np.linspace],
    which converts it to a float64 (the driver's [20] enters as [20.0]). *)
Record instance : Type := {
  initial_conditions : list float;
  time_span : float;
  kind : model
}.

(** The attribute assignments a subclass constructor performs after the base
    constructor returns ([self.m = m] and the like): they fix the subclass
    part of the instance and leave the two base attributes alone. *)
Definition set_attributes (self : instance) (k : model) : instance :=
  {| initial_conditions := self.(initial_conditions);
     time_span := self.(time_span);
     kind := k |}.

(** [MechanicalSystem.__init__]: two attribute assignments. *)
Definition MechanicalSystem (initial_conditions : list float) (time_span : float)
  : result instance :=
  Ok {| initial_conditions := initial_conditions; time_span := time_span;
        kind := BaseModel |}.

(** [SpringMassDamper.__init__]: the base constructor, then [m], [c], [k]. *)
Definition SpringMassDamper (m c k : float)
    (initial_conditions : list float) (time_span : float) : result instance :=
  self <- MechanicalSystem initial_conditions time_span ;;
  Ok (set_attributes self (SpringMassDamperModel m c k)).

(** [SimplePendulum.__init__]: the base constructor, then [l], [g]. *)
Definition SimplePendulum (l g : float)
    (initial_conditions : list float) (time_span : float) : result instance :=
  self <- MechanicalSystem initial_conditions time_span ;;
  Ok (set_attributes self (SimplePendulumModel l g)).

(** [RotationalInertia.__init__]: the base constructor, then [I], [torque]. *)
Definition RotationalInertia (I' torque : float)
    (initial_conditions : list float) (time_span : float) : result instance :=
  self <- MechanicalSystem initial_conditions time_span ;;
  Ok (set_attributes self (RotationalInertiaModel I' torque)).

(** ** [np.linspace] *)

(** The float64 value of a small natural number. *)
Definition float_of_nat (n : nat) : float :=
  PrimFloat.of_uint63 (Uint63.of_Z (Z.of_nat n)).

(** [np.arange(0, num)] as float64. *)
Definition arange (num : nat) : list float := map float_of_nat (seq 0 num).

(** [y[-1] = stop]. *)
Definition set_last (y : list float) (stop : float) : list float :=
  match y with
  | [] => []
  | _ :: _ => removelast y ++ [stop]
  end.

(** [np.linspace(start, stop, num)] with the default [endpoint=True], as
    NumPy computes it on float64 scalars: [num] multiples of the step
    [(stop - start) / (num - 1)], shifted by [start], the last entry then
    overwritten with [stop].  When the step underflows to zero the multiples
    are computed as [i / (num - 1) * (stop - start)] instead. *)
Definition linspace (start stop : float) (num : nat) : list float :=
  let div := pred num in
  let delta := (stop - start)%float in
  let y := arange num in
  let y :=
    if (0 <? div)%nat then
      let step := (delta / float_of_nat div)%float in
      if is_zero step
      then map (fun yi => (yi / float_of_nat div * delta)%float) y
      else map (fun yi => (yi * step)%float) y
    else map (fun yi => (yi * delta)%float) y in
  let y := map (fun yi => (yi + start)%float) y in
  if (1 <? num)%nat then set_last y stop else y.

(** [times] is strictly increasing, with the float comparison [<]. *)
Fixpoint strictly_increasing (times : list float) : bool :=
  match times with
  | [] => true
  | t0 :: rest =>
      match rest with
      | [] => true
      | t1 :: _ => (t0 <? t1)%float && strictly_increasing rest
      end
  end.

(** ** The methods *)

(** The type of a bound [equations] method: state and time in, derivative
    list out, or an exception. *)
Definition derivative : Type := list scalar -> scalar -> result (list scalar).

(** The trajectory [simulate] returns: [(time_points, solution)], the
    solution with one row per time point. *)
Definition trajectory : Type := (list float * list (list float))%type.

Section Methods.

(** [np.sin] on a scalar (the platform's libm). *)
Variable np_sin : float -> float.

(** [scipy.integrate.odeint(func, y0, t)]. *)
Variable odeint : derivative -> list float -> list float -> result (list (list float)).

(** [self.equations(y, t)], dispatched on the class of [self].  The base
    class raises; each subclass unpacks [y] into two names, which raises
    [ValueError] unless [y] has exactly two entries. *)
Definition equations (self : instance) (y : list scalar) (t : scalar)
  : result (list scalar) :=
  match self.(kind) with
  | BaseModel => Raise NotImplementedError
  | SpringMassDamperModel m c k =>
      match y with
      | [x; v] =>
          let dxdt := v in
          dvdt <- py_truediv
                    (py_sub (py_mul (py_neg (PyFloat c)) v) (py_mul (PyFloat k) x))
                    (PyFloat m) ;;
          Ok [dxdt; dvdt]
      | _ => Raise ValueError
      end
  | SimplePendulumModel l g =>
      match y with
      | [theta; omega] =>
          let dthetadt := omega in
          q <- py_truediv (PyFloat g) (PyFloat l) ;;
          let domegadt := py_mul (py_neg q) (NpFloat64 (np_sin (value theta))) in
          Ok [dthetadt; domegadt]
      | _ => Raise ValueError
      end
  | RotationalInertiaModel I' torque =>
      match y with
      | [theta; omega] =>
          let dthetadt := omega in
          domegadt <- py_truediv (PyFloat torque) (PyFloat I') ;;
          Ok [dthetadt; domegadt]
      | _ => Raise ValueError
      end
  end.

(** [MechanicalSystem.simulate]. *)
Definition simulate (self : instance) : result trajectory :=
  let time_points := linspace 0 self.(time_span) 1000 in
  solution <- odeint (equations self) self.(initial_conditions) time_points ;;
  Ok (time_points, solution).

End Methods.

(** ** A solver with [odeint]'s interface *)

(** [y + h * dydt], entry by entry. *)
Definition euler_step (h : float) (y dydt : list float) : list float :=
  map (fun p => (fst p + h * snd p)%float) (combine y dydt).

(** The rows for the sample times after the first: one explicit Euler step
    per interval.  The callback receives a float64 array and a Python float;
    a result of the wrong size is an error. *)
Fixpoint euler_rows (func : derivative) (y : list float) (t : float)
    (rest : list float) : result (list (list float)) :=
  match rest with
  | [] => Ok []
  | t' :: rest' =>
      dydt <- func (map NpFloat64 y) (PyFloat t) ;;
      if (length dydt =? length y)%nat then
        let y' := euler_step (t' - t) y (map value dydt) in
        rows <- euler_rows func y' t' rest' ;;
        Ok (y' :: rows)
      else Raise RuntimeError
  end.

(** Explicit Euler between the sample times, the initial state in the first
    row.  This is not SciPy's LSODA: it is a solver that meets the contract
    assumed of [odeint] below, so that the contract can be met and
    [simulate] can be run. *)
Definition euler_odeint (func : derivative) (y0 : list float) (t : list float)
  : result (list (list float)) :=
  match t with
  | [] => Ok []
  | t0 :: rest => rows <- euler_rows func y0 t0 rest ;; Ok (y0 :: rows)
  end.

(** A polynomial stand-in for [np.sin]: the Taylor polynomial of degree 7. *)
Definition sin_taylor (x : float) : float :=
  let x2 := (x * x)%float in
  (x * (1 - x2 / 6 * (1 - x2 / 20 * (1 - x2 / 42))))%float.

(** [simulate] run with the Euler solver and the polynomial sine; an
    exception shows as the empty trajectory. *)
Definition run (self : instance) : trajectory :=
  match simulate sin_taylor euler_odeint self with
  | Ok tr => tr
  | Raise _ => ([], [])
  end.

(** ** Binary64 values and their rounding *)

(** The horizons for which the sample grid is analysed below: from [2^-1000]
    to [2^1000]. *)
Definition in_range (T : float) : bool :=
  (0x1p-1000 <=? T)%float && (T <=? 0x1p1000)%float.

Module Binary64.
Local Open Scope Z_scope.

(** The record of a right shift stands for the number [N / W]: [shr_m] is
    its integer part, and the round and sticky bits tell where the fraction
    lies with respect to one half. *)
Definition represents (mrs : shr_record) (N W : Z) : Prop :=
  0 < W /\ 0 <= shr_m mrs /\
  exists rem, N = shr_m mrs * W + rem /\ 0 <= rem < W /\
    (shr_r mrs = true <-> W <= 2 * rem) /\
    (shr_s mrs = false <-> (rem = 0 \/ 2 * rem = W)).

(** [x] is the positive normal float with mantissa [m] and exponent [e]. *)
Definition normal_pos (x : float) (m : positive) (e : Z) : Prop :=
  Prim2SF x = S754_finite false m e /\ 2 ^ 52 <= Zpos m < 2 ^ 53.

(** The integers 1..999 as floats: normal, exact. *)
Definition nat_float_ok (i : nat) : bool :=
  match Prim2SF (float_of_nat i) with
  | S754_finite false m e =>
      (Zpos m * 2 ^ (e + 52) =? Z.of_nat i * 2 ^ 52) && (-52 <=? e) && (e <=? -43)
      && (2 ^ 52 <=? Zpos m) && (Zpos m <? 2 ^ 53)
  | _ => false
  end.

End Binary64.

(** ** What is assumed of [odeint] *)

(** SciPy documents the value of [odeint(func, y0, t)] as an array of shape
    [(len(t), len(y0))] with the initial value [y0] in the first row. *)
Definition shape_spec
    (odeint : derivative -> list float -> list float -> result (list (list float)))
  : Prop :=
  forall func y0 t solution,
    odeint func y0 t = Ok solution ->
    length solution = length t /\
    Forall (fun row => length row = length y0) solution.

Definition first_row_spec
    (odeint : derivative -> list float -> list float -> result (list (list float)))
  : Prop :=
  forall func y0 t solution,
    odeint func y0 t = Ok solution -> t <> [] ->
    nth_error solution 0 = Some y0.

(** To start the integration the solver evaluates [func] at the initial
    state and the first sample time, with the state as a float64 array; an
    exception raised there leaves [odeint] as it is.  This is assumed for a
    non-empty state and strictly increasing sample times with at least two
    entries. *)
Definition propagation_spec
    (odeint : derivative -> list float -> list float -> result (list (list float)))
  : Prop :=
  forall func y0 t0 rest e,
    y0 <> [] -> rest <> [] -> strictly_increasing (t0 :: rest) = true ->
    func (map NpFloat64 y0) (PyFloat t0) = Raise e ->
    odeint func y0 (t0 :: rest) = Raise e.

(** A call that raises. *)
Definition raises {A : Type} (r : result A) : Prop := exists e, r = Raise e.

(** The three classes of the catalogue, as opposed to the base class. *)
Definition reference_system (self : instance) : bool :=
  match self.(kind) with
  | BaseModel => false
  | _ => true
  end.

(** Instances used as concrete inputs: the three systems of the driver
    script ([np.pi / 4] and [9.81] written as the float64 values they
    denote) and an instance of the base class. *)
Definition spring_mass_damper : instance :=
  {| initial_conditions := [1%float; 0%float]; time_span := 20%float;
     kind := SpringMassDamperModel 1 0.5 2 |}.

Definition simple_pendulum : instance :=
  {| initial_conditions := [0x1.921fb54442d18p-1%float; 0%float];
     time_span := 20%float;
     kind := SimplePendulumModel 1 0x1.39eb851eb851fp+3 |}.

Definition rotational_inertia : instance :=
  {| initial_conditions := [0%float; 0%float]; time_span := 20%float;
     kind := RotationalInertiaModel 1 1 |}.

Definition base_system : instance :=
  {| initial_conditions := [0%float; 0%float]; time_span := 20%float;
     kind := BaseModel |}.



(** ** Plotting and the test harness *)

(** [times] is strictly decreasing, with the float comparison [<]. *)
Fixpoint strictly_decreasing (times : list float) : bool :=
  match times with
  | [] => true
  | t0 :: rest =>
      match rest with
      | [] => true
      | t1 :: _ => (t1 <? t0)%float && strictly_decreasing rest
      end
  end.

(** Every entry of a state is a Python float (none is a NumPy scalar). *)
Definition python_floats (y : list scalar) : bool :=
  forallb (fun a => match a with PyFloat _ => true | NpFloat64 _ => false end) y.

(** The calls [plot_results] makes on [matplotlib.pyplot].  What pyplot does
    with them is outside the program; the program's effect is the sequence
    of calls, kept in a log. *)
Inductive plt_call : Type :=
| plt_figure (width height : nat)
| plt_subplot (nrows ncols index : nat)
| plt_plot (x y : list float)
| plt_title (label : String.string)
| plt_xlabel (label : String.string)
| plt_ylabel (label : String.string)
| plt_tight_layout
| plt_show.

(** What can end [plot_results] early: an exception of [simulate], which
    nothing catches, or the [IndexError] of a column index out of bounds. *)
Inductive error : Type :=
| Uncaught (e : exception)
| IndexError.

Inductive outcome (A : Type) : Type :=
| Returned (a : A)
| Raised (e : error).

Arguments Returned {A} a.
Arguments Raised {A} e.

(** A computation that calls pyplot: it extends the log of calls made so
    far, and an exception leaves the calls already made in the log. *)
Definition plotting (A : Type) : Type :=
  list plt_call -> outcome A * list plt_call.

Definition and_then {A B : Type} (c : plotting A) (k : A -> plotting B)
  : plotting B :=
  fun log =>
    match c log with
    | (Returned a, log') => k a log'
    | (Raised e, log') => (Raised e, log')
    end.

Definition done : plotting unit := fun log => (Returned tt, log).

Definition call (c : plt_call) : plotting unit :=
  fun log => (Returned tt, log ++ [c]).

Definition lift {A : Type} (r : result A) : plotting A :=
  fun log =>
    match r with
    | Ok a => (Returned a, log)
    | Raise e => (Raised (Uncaught e), log)
    end.

Declare Scope plt_scope.
Delimit Scope plt_scope with plt.
Notation "x <- c ;; k" := (and_then c (fun x => k))
  (at level 61, c at next level, right associativity) : plt_scope.
Notation "c ;; k" := (and_then c (fun _ => k))
  (at level 61, right associativity) : plt_scope.

(** Column [j] of a two-dimensional array given by its rows; [None] when a
    row has no entry [j].  (An array without rows has every column, empty.) *)
Fixpoint column (solution : list (list float)) (j : nat) : option (list float) :=
  match solution with
  | [] => Some []
  | row :: rest =>
      match nth_error row j, column rest j with
      | Some x, Some xs => Some (x :: xs)
      | _, _ => None
      end
  end.

(** [solution[:, j]]. *)
Definition getitem (solution : list (list float)) (j : nat)
  : plotting (list float) :=
  fun log =>
    match column solution j with
    | Some c => (Returned c, log)
    | None => (Raised IndexError, log)
    end.

(** An instance of [MechanicalSystemTest]: the list [self.systems] of
    [(system, title)] pairs. *)
Record harness : Type := { systems : list (instance * String.string) }.

(** [MechanicalSystemTest.__init__]. *)
Definition MechanicalSystemTest : harness := {| systems := [] |}.

(** [MechanicalSystemTest.add_system]: [self.systems.append((system, title))]. *)
Definition add_system (self : harness) (system : instance) (title : String.string)
  : harness :=
  {| systems := self.(systems) ++ [(system, title)] |}.

Section Driver.

Local Open Scope plt_scope.

Variable np_sin : float -> float.
Variable odeint : derivative -> list float -> list float -> result (list (list float)).

(** [plot_results(system, title)]. *)
Definition plot_results (system : instance) (title : String.string)
  : plotting unit :=
  tr <- lift (simulate np_sin odeint system) ;;
  let time_points := fst tr in
  let solution := snd tr in
  position <- getitem solution 0 ;;
  velocity <- getitem solution 1 ;;
  call (plt_figure 12 6) ;;
  call (plt_subplot 2 1 1) ;;
  call (plt_plot time_points position) ;;
  call (plt_title (String.append title " - Position vs Time"%string)) ;;
  call (plt_xlabel "Time (s)"%string) ;;
  call (plt_ylabel "Position"%string) ;;
  call (plt_subplot 2 1 2) ;;
  call (plt_plot time_points velocity) ;;
  call (plt_title (String.append title " - Velocity vs Time"%string)) ;;
  call (plt_xlabel "Time (s)"%string) ;;
  call (plt_ylabel "Velocity"%string) ;;
  call plt_tight_layout ;;
  call plt_show.

(** The loop of [run_tests] over the pairs still to be plotted. *)
Fixpoint run_tests_from (pairs : list (instance * String.string)) : plotting unit :=
  match pairs with
  | [] => done
  | (system, title) :: rest => plot_results system title ;; run_tests_from rest
  end.

(** [MechanicalSystemTest.run_tests]. *)
Definition run_tests (self : harness) : plotting unit :=
  run_tests_from self.(systems).

(** The main script. *)
Definition main : plotting unit :=
  let test := MechanicalSystemTest in
  spring_mass_damper <-
    lift (SpringMassDamper 1 0.5 2 [1%float; 0%float] 20) ;;
  let test := add_system test spring_mass_damper "Spring-Mass-Damper System"%string in
  simple_pendulum <-
    lift (SimplePendulum 1 0x1.39eb851eb851fp+3
            [(0x1.921fb54442d18p+1 / 4)%float; 0%float] 20) ;;
  let test := add_system test simple_pendulum "Simple Pendulum"%string in
  rotational_inertia <-
    lift (RotationalInertia 1 1 [0%float; 0%float] 20) ;;
  let test := add_system test rotational_inertia "Rotational Inertia System"%string in
  run_tests test.

End Driver.

(** The number of figures shown so far: the [plt.show()] calls in a log. *)
Definition shows (log : list plt_call) : nat :=
  length (filter (fun c => match c with plt_show => true | _ => false end) log).

(** The calls that draw one figure, in the order [plot_results] makes them. *)
Definition figure_calls (time_points position velocity : list float)
    (title : String.string) : list plt_call :=
  [ plt_figure 12 6;
    plt_subplot 2 1 1;
    plt_plot time_points position;
    plt_title (String.append title " - Position vs Time"%string);
    plt_xlabel "Time (s)"%string;
    plt_ylabel "Position"%string;
    plt_subplot 2 1 2;
    plt_plot time_points velocity;
    plt_title (String.append title " - Velocity vs Time"%string);
    plt_xlabel "Time (s)"%string;
    plt_ylabel "Velocity"%string;
    plt_tight_layout;
    plt_show ].




Definition backward_system : instance :=
  {| initial_conditions := [1%float; 0%float]; time_span := (-20)%float;
     kind := SpringMassDamperModel 1 0.5 2 |}.

(** * Properties *)

(** ** The error monad *)

Lemma bind_Ok_inv (A B : Type) (r : result A) (k : A -> result B) (b : B) :
  bind r k = Ok b -> exists a, r = Ok a /\ k a = Ok b.
Proof.
  destruct r as [a | e]; simpl; intros H.
  - exists a. split; [reflexivity | exact H].
  - discriminate H.
Qed.

(** ** Rounding to binary64 *)

(** What follows derives, from the specification of the primitive floats,
    the standard error bound of a product or quotient of normal numbers: the
    result is within half a unit in the last place.  Numbers are handled as
    integers scaled by a power of two. *)

Module Binary64Facts.
Import Binary64.
Local Open Scope Z_scope.

(** A mantissa of [d] binary digits lies between [2^(d-1)] and [2^d]. *)
Lemma digits2_pos_bounds (m : positive) :
  2 ^ (Zpos (digits2_pos m) - 1) <= Zpos m < 2 ^ Zpos (digits2_pos m).
Proof.
  induction m as [m IH | m IH |]; cbn [digits2_pos].
  - rewrite Pos2Z.inj_succ. set (d := Zpos (digits2_pos m)) in *.
    replace (Z.succ d - 1) with (Z.succ (d - 1)) by lia.
    rewrite !Z.pow_succ_r by lia. lia.
  - rewrite Pos2Z.inj_succ. set (d := Zpos (digits2_pos m)) in *.
    replace (Z.succ d - 1) with (Z.succ (d - 1)) by lia.
    rewrite !Z.pow_succ_r by lia. lia.
  - simpl. lia.
Qed.

(** Conversely, a number between [2^(d-1)] and [2^d] has [d] digits. *)
Lemma digits2_pos_unique (m : positive) (d : Z) :
  2 ^ (d - 1) <= Zpos m < 2 ^ d -> Zpos (digits2_pos m) = d.
Proof.
  intros [Hlo Hhi]. pose proof (digits2_pos_bounds m) as [Hlo' Hhi'].
  assert (0 < d).
  { destruct (Z.ltb_spec 0 d); [assumption |].
    assert (2 ^ d <= 2 ^ 0) by (apply Z.pow_le_mono_r; lia). simpl in *. lia. }
  set (d' := Zpos (digits2_pos m)) in *.
  destruct (Z.lt_trichotomy d' d) as [Hlt | [Heq | Hgt]]; [| exact Heq |].
  - assert (2 ^ d' <= 2 ^ (d - 1)) by (apply Z.pow_le_mono_r; lia). lia.
  - assert (2 ^ d <= 2 ^ (d' - 1)) by (apply Z.pow_le_mono_r; lia). lia.
Qed.

(** A valid finite float has at most 53 digits, exactly 53 unless its
    exponent is the smallest one. *)
Lemma bounded_inv (m : positive) (e : Z) :
  bounded prec emax m e = true ->
  -1074 <= e <= 971 /\ Zpos (digits2_pos m) <= 53 /\
  (-1074 < e -> Zpos (digits2_pos m) = 53).
Proof.
  unfold bounded, canonical_mantissa, fexp, SpecFloat.emin, prec, emax.
  intros H. apply andb_prop in H. destruct H as [H1 H2].
  apply Z.eqb_eq in H1. apply Z.leb_le in H2. lia.
Qed.

(** ** Shifting with a round bit and a sticky bit *)

Lemma represents_exact (m : Z) :
  0 <= m -> represents (shr_record_of_loc m loc_Exact) m 1.
Proof.
  intros Hm. unfold represents; cbn. repeat split; try lia.
  exists 0. repeat split; intros; try lia; try discriminate. 
Qed.

(** One shift halves the integer part and doubles the denominator. *)
Lemma shr_1_represents (mrs : shr_record) (N W : Z) :
  represents mrs N W -> represents (shr_1 mrs) N (2 * W).
Proof.
  intros (HW & Hm & rem & HN & Hrem & Hr & Hs).
  destruct mrs as [m r s]. cbn [shr_m shr_r shr_s] in *.
  assert (Hrs : orb r s = false <-> rem = 0).
  { split.
    - intros H. apply orb_false_elim in H. destruct H as [-> ->].
      destruct Hs as [Hs _]. specialize (Hs eq_refl).
      destruct Hs as [Hs | Hs]; [exact Hs |].
      destruct Hr as [_ Hr]. assert (false = true) by (apply Hr; lia). discriminate.
    - intros ->. 
      assert (s = false) as -> by (apply Hs; lia).
      destruct r; [| reflexivity].
      destruct Hr as [Hr _]. specialize (Hr eq_refl). lia. }
  unfold represents.
  destruct m as [| [p | p |] | p]; cbn [shr_1 shr_m shr_r shr_s]; try lia;
    (split; [lia | split; [lia |]]);
    [ exists rem | exists (W + rem) | exists rem | exists (W + rem) ];
    (split; [lia | split; [lia | split]]);
    try (split; intros H; [apply Hrs in H; lia | apply Hrs; lia]);
    (split; intros H; first [discriminate | reflexivity | lia]).
Qed.

Lemma pow2_xO (p : positive) : 2 ^ Zpos p~0 = 2 ^ Zpos p * 2 ^ Zpos p.
Proof.
  replace (Zpos p~0) with (Zpos p + Zpos p) by lia.
  apply Z.pow_add_r; lia.
Qed.

Lemma pow2_xI (p : positive) : 2 ^ Zpos p~1 = 2 ^ Zpos p * (2 ^ Zpos p * 2).
Proof.
  replace (Zpos p~1) with (Zpos p + (Zpos p + 1)) by lia.
  rewrite !Z.pow_add_r by lia. reflexivity.
Qed.

Lemma iter_pos_shr_1_represents (p : positive) :
  forall mrs N W,
    represents mrs N W -> represents (iter_pos shr_1 p mrs) N (2 ^ Zpos p * W).
Proof.
  induction p as [p IH | p IH |]; intros mrs N W H; cbn [iter_pos].
  - apply shr_1_represents in H. apply IH in H. apply IH in H.
    replace (2 ^ Zpos p~1 * W) with (2 ^ Zpos p * (2 ^ Zpos p * (2 * W))); [exact H |].
    rewrite pow2_xI. ring.
  - apply IH in H. apply IH in H.
    replace (2 ^ Zpos p~0 * W) with (2 ^ Zpos p * (2 ^ Zpos p * W)); [exact H |].
    rewrite pow2_xO. ring.
  - apply shr_1_represents in H. exact H.
Qed.

Lemma shr_represents (mrs : shr_record) (e n N W : Z) :
  represents mrs N W -> 0 <= n ->
  represents (fst (shr mrs e n)) N (2 ^ n * W) /\ snd (shr mrs e n) = e + n.
Proof.
  intros H Hn. destruct n as [| p | p]; cbn [shr fst snd]; try lia.
  - split; [| lia]. rewrite Z.pow_0_r, Z.mul_1_l. exact H.
  - split; [| reflexivity]. now apply iter_pos_shr_1_represents.
Qed.

(** Round to nearest, ties to even, on the represented number. *)
Lemma round_nearest_even_represents (mrs : shr_record) (N W : Z) :
  represents mrs N W ->
  let m := round_nearest_even (shr_m mrs) (loc_of_shr_record mrs) in
  shr_m mrs <= m <= shr_m mrs + 1 /\ 2 * Z.abs (m * W - N) <= W.
Proof.
  intros (HW & Hm & rem & HN & Hrem & Hr & Hs).
  destruct mrs as [m r s]. cbn [shr_m shr_r shr_s] in *.
  destruct r, s; cbn [loc_of_shr_record round_nearest_even].
  - assert (W <= 2 * rem) by (apply Hr; reflexivity). lia.
  - assert (W <= 2 * rem) by (apply Hr; reflexivity).
    assert (rem = 0 \/ 2 * rem = W) by (apply Hs; reflexivity).
    destruct (Z.even m); lia.
  - assert (~ W <= 2 * rem) by (intros H; apply Hr in H; discriminate). lia.
  - assert (rem = 0 \/ 2 * rem = W) by (apply Hs; reflexivity).
    assert (~ W <= 2 * rem) by (intros H'; apply Hr in H'; discriminate). lia.
Qed.

Lemma Zdigits2_pos (m : positive) : Zdigits2 (Zpos m) = Zpos (digits2_pos m).
Proof. reflexivity. Qed.

Lemma fexp_normal (x : Z) : -1074 <= x - 53 -> fexp prec emax x = x - 53.
Proof. unfold fexp, SpecFloat.emin, prec, emax. lia. Qed.

(** Rounding a positive number [N / W * 2^ex] whose integer part [mx] has at
    least 53 bits, when the result is a normal number below the overflow
    threshold: the result has a 53-bit mantissa and is within half a unit in
    the last place. *)
Lemma binary_round_aux_normal (sx : bool) (mx : positive) (ex : Z)
    (lx : location) (N W : Z) :
  represents (shr_record_of_loc (Zpos mx) lx) N W ->
  53 <= Zpos (digits2_pos mx) ->
  -1074 <= Zpos (digits2_pos mx) + ex - 53 ->
  Zpos (digits2_pos mx) + ex - 52 <= 971 ->
  exists m e,
    binary_round_aux prec emax sx (Zpos mx) ex lx = S754_finite sx m e /\
    2 ^ 52 <= Zpos m < 2 ^ 53 /\
    Zpos (digits2_pos mx) + ex - 53 <= e <= Zpos (digits2_pos mx) + ex - 52 /\
    2 * Z.abs (Zpos m * 2 ^ (e - ex) * W - N) <= 2 ^ (e - ex) * W.
Proof.
  intros Hrep Hd Hlo Hhi.
  pose proof (digits2_pos_bounds mx) as Hmx.
  set (d := Zpos (digits2_pos mx)) in *.
  unfold binary_round_aux, shr_fexp.
  rewrite Zdigits2_pos. fold d.
  rewrite fexp_normal by lia.
  replace (d + ex - 53 - ex) with (d - 53) by lia.
  destruct (shr_represents ex (n := d - 53) Hrep ltac:(lia)) as [Hrep' He'].
  destruct (shr (shr_record_of_loc (Zpos mx) lx) ex (d - 53)) as [mrs' e'].
  cbn [fst snd] in Hrep', He'. subst e'.
  pose proof (round_nearest_even_represents Hrep') as Hrne. cbv zeta in Hrne.
  set (m'' := round_nearest_even (shr_m mrs') (loc_of_shr_record mrs')) in *.
  destruct Hrne as [Hm'' Herr].
  (* the truncated mantissa has exactly 53 bits *)
  assert (HW : 0 < W) by (destruct Hrep as [HW _]; exact HW).
  assert (HP : 0 < 2 ^ (d - 53)) by (apply Z.pow_pos_nonneg; lia).
  set (P := 2 ^ (d - 53)) in *.
  assert (Hsplit : 2 ^ d = 2 ^ 53 * P /\ 2 ^ (d - 1) = 2 ^ 52 * P).
  { unfold P. rewrite <- !Z.pow_add_r by lia. split; f_equal; lia. }
  destruct Hsplit as [Hd1 Hd2]. rewrite Hd1, Hd2 in Hmx.
  assert (Hm' : 2 ^ 52 <= shr_m mrs' < 2 ^ 53).
  { destruct Hrep as (_ & _ & rem0 & HN0 & Hrem0 & _).
    destruct Hrep' as (_ & _ & rem & HN & Hrem & _).
    cbn [shr_m] in HN0.
    assert (Hshr : shr_m (shr_record_of_loc (Zpos mx) lx) = Zpos mx)
      by (destruct lx as [| []]; reflexivity).
    rewrite Hshr in HN0.
    change (2 ^ 52) with 4503599627370496 in *.
    change (2 ^ 53) with 9007199254740992 in *.
    split; nia. }
  change (2 ^ 52) with 4503599627370496 in *.
  change (2 ^ 53) with 9007199254740992 in *.
  destruct (Z.eq_dec m'' 9007199254740992) as [Hcarry | Hnocarry].
  - (* the rounding carried into a 54th bit *)
    rewrite Hcarry in *.
    change (Zdigits2 9007199254740992) with 54.
    replace (fexp prec emax (54 + (ex + (d - 53))) - (ex + (d - 53))) with 1
      by (rewrite fexp_normal by lia; lia).
    cbn [shr shr_record_of_loc iter_pos shr_1 shr_m].
    replace (ex + (d - 53) + 1 <=? emax - prec) with true
      by (symmetry; apply Z.leb_le; unfold emax, prec; lia).
    exists 4503599627370496%positive, (ex + (d - 53) + 1).
    split; [reflexivity |]. split; [lia |]. split; [lia |].
    replace (ex + (d - 53) + 1 - ex) with (d - 53 + 1) by lia.
    rewrite Z.pow_add_r by lia. fold P. change (2 ^ 1) with 2. lia.
  - destruct m'' as [| p | p] eqn:Ep; try lia.
    rewrite Zdigits2_pos.
    rewrite (@digits2_pos_unique p 53) by (change (2 ^ (53 - 1)) with 4503599627370496;
      change (2 ^ 53) with 9007199254740992; lia).
    replace (fexp prec emax (53 + (ex + (d - 53))) - (ex + (d - 53))) with 0
      by (rewrite fexp_normal by lia; lia).
    cbn [shr shr_record_of_loc shr_m].
    replace (ex + (d - 53) <=? emax - prec) with true
      by (symmetry; apply Z.leb_le; unfold emax, prec; lia).
    exists p, (ex + (d - 53)).
    split; [reflexivity |]. split; [lia |]. split; [lia |].
    replace (ex + (d - 53) - ex) with (d - 53) by lia. fold P. lia.
Qed.

(** ** Comparison of positive normal numbers *)

Lemma SFltb_normal (m1 m2 : positive) (e1 e2 b : Z) :
  2 ^ 52 <= Zpos m1 < 2 ^ 53 -> 2 ^ 52 <= Zpos m2 < 2 ^ 53 ->
  b <= e1 -> b <= e2 ->
  Zpos m1 * 2 ^ (e1 - b) < Zpos m2 * 2 ^ (e2 - b) ->
  SFltb (S754_finite false m1 e1) (S754_finite false m2 e2) = true.
Proof.
  intros H1 H2 Hb1 Hb2 Hlt.
  change (2 ^ 52) with 4503599627370496 in *.
  change (2 ^ 53) with 9007199254740992 in *.
  unfold SFltb, SFcompare.
  destruct (Z.compare_spec e1 e2) as [Heq | Hlt' | Hgt].
  - subst e2.
    assert (HP : 0 < 2 ^ (e1 - b)) by (apply Z.pow_pos_nonneg; lia).
    assert (Hm : (m1 < m2)%positive) by nia.
    change (Pos.compare_cont Eq m1 m2) with (Pos.compare m1 m2).
    now rewrite (proj2 (Pos.compare_lt_iff m1 m2) Hm).
  - reflexivity.
  - exfalso.
    assert (HP : 0 < 2 ^ (e2 - b)) by (apply Z.pow_pos_nonneg; lia).
    assert (HQ : 2 ^ (e1 - b) = 2 ^ (e1 - e2) * 2 ^ (e2 - b)).
    { rewrite <- Z.pow_add_r by lia. f_equal. lia. }
    assert (HR : 2 ^ 1 <= 2 ^ (e1 - e2)) by (apply Z.pow_le_mono_r; lia).
    change (2 ^ 1) with 2 in HR.
    rewrite HQ in Hlt. nia.
Qed.

(** ** Multiplication in the normal range *)

Lemma SF64mul_normal (m1 m2 : positive) (e1 e2 : Z) :
  2 ^ 52 <= Zpos m1 < 2 ^ 53 -> 2 ^ 52 <= Zpos m2 < 2 ^ 53 ->
  -1074 <= 52 + (e1 + e2) -> 54 + (e1 + e2) <= 971 ->
  exists m e,
    SF64mul (S754_finite false m1 e1) (S754_finite false m2 e2)
      = S754_finite false m e /\
    2 ^ 52 <= Zpos m < 2 ^ 53 /\
    52 + (e1 + e2) <= e <= 54 + (e1 + e2) /\
    2 * Z.abs (Zpos m * 2 ^ (e - (e1 + e2)) - Zpos m1 * Zpos m2)
      <= 2 ^ (e - (e1 + e2)).
Proof.
  intros H1 H2 Hlo Hhi.
  pose proof (digits2_pos_bounds (m1 * m2)) as Hd.
  set (d := Zpos (digits2_pos (m1 * m2))) in *.
  assert (Hd' : 105 <= d <= 106).
  { rewrite Pos2Z.inj_mul in Hd.
    assert (2 ^ 104 <= Zpos m1 * Zpos m2 < 2 ^ 106).
    { change (2 ^ 104) with (2 ^ 52 * 2 ^ 52). change (2 ^ 106) with (2 ^ 53 * 2 ^ 53).
      change (2 ^ 52) with 4503599627370496 in *.
      change (2 ^ 53) with 9007199254740992 in *. nia. }
    split.
    - destruct (Z.le_gt_cases 105 d) as [| Hc]; [assumption |].
      assert (2 ^ d <= 2 ^ 104) by (apply Z.pow_le_mono_r; lia). lia.
    - destruct (Z.le_gt_cases d 106) as [| Hc]; [assumption |].
      assert (2 ^ 106 <= 2 ^ (d - 1)) by (apply Z.pow_le_mono_r; lia). lia. }
  unfold SF64mul, SFmul. cbn [xorb].
  destruct (@binary_round_aux_normal false (m1 * m2) (e1 + e2) loc_Exact
              (Zpos (m1 * m2)) 1) as (m & e & Hr & Hm & He & Hb).
  - apply represents_exact. lia.
  - fold d. lia.
  - fold d. lia.
  - fold d. lia.
  - fold d in He. exists m, e. split; [exact Hr |]. split; [exact Hm |].
    split; [lia |]. rewrite Pos2Z.inj_mul in Hb. lia.
Qed.

(** ** Division in the normal range *)

(** Quotient and remainder of a Euclidean division, with the location the
    division computes from the remainder, stand for the exact quotient. *)
Lemma new_location_represents (q r m2 N : Z) :
  0 <= q -> N = m2 * q + r -> 0 <= r < m2 ->
  represents (shr_record_of_loc q (new_location m2 r)) N m2.
Proof.
  intros Hq HN Hr.
  assert (Hgoal : forall rb sb,
             (rb = true <-> m2 <= 2 * r) ->
             (sb = false <-> (r = 0 \/ 2 * r = m2)) ->
             represents (Build_shr_record q rb sb) N m2).
  { intros rb sb Hrb Hsb. unfold represents. cbn [shr_m shr_r shr_s].
    split; [lia |]. split; [lia |]. exists r.
    split; [lia |]. split; [lia |]. split; assumption. }
  unfold new_location, new_location_even, new_location_odd.
  destruct (Z.even m2) eqn:Heven.
  - destruct (Z.eqb_spec r 0) as [-> | Hr0]; cbn [shr_record_of_loc].
    + apply Hgoal; split; intros; try discriminate; try lia.
    + destruct (Z.compare_spec (2 * r) m2); cbn [shr_record_of_loc];
        apply Hgoal; split; intros; try discriminate; try reflexivity; try lia.
  - assert (Hodd : exists k, m2 = 2 * k + 1).
    { apply Z.odd_spec. rewrite <- Z.negb_even, Heven. reflexivity. }
    destruct Hodd as [k Hk].
    destruct (Z.eqb_spec r 0) as [-> | Hr0]; cbn [shr_record_of_loc].
    + apply Hgoal; split; intros; try discriminate; try lia.
    + destruct (Z.compare_spec (2 * r + 1) m2); cbn [shr_record_of_loc];
        apply Hgoal; split; intros; try discriminate; try reflexivity; try lia.
Qed.

Lemma SF64div_normal (m1 m2 : positive) (e1 e2 : Z) :
  2 ^ 52 <= Zpos m1 < 2 ^ 53 -> 2 ^ 52 <= Zpos m2 < 2 ^ 53 ->
  -1074 <= e1 - e2 - 53 -> e1 - e2 - 51 <= 971 ->
  exists m e,
    SF64div (S754_finite false m1 e1) (S754_finite false m2 e2)
      = S754_finite false m e /\
    2 ^ 52 <= Zpos m < 2 ^ 53 /\
    e1 - e2 - 53 <= e <= e1 - e2 - 51 /\
    2 * Z.abs (Zpos m * 2 ^ (e - (e1 - e2 - 53)) * Zpos m2 - Zpos m1 * 2 ^ 53)
      <= 2 ^ (e - (e1 - e2 - 53)) * Zpos m2.
Proof.
  intros H1 H2 Hlo Hhi.
  unfold SF64div, SFdiv, SFdiv_core_binary. cbn [xorb].
  rewrite !Zdigits2_pos.
  rewrite (@digits2_pos_unique m1 53), (@digits2_pos_unique m2 53)
    by exact H1 || exact H2.
  replace (53 + e1 - (53 + e2)) with (e1 - e2) by lia.
  rewrite fexp_normal by lia.
  replace (Z.min (e1 - e2 - 53) (e1 - e2)) with (e1 - e2 - 53) by lia.
  replace (e1 - e2 - (e1 - e2 - 53)) with 53 by lia.
  rewrite Z.shiftl_mul_pow2 by lia.
  pose proof (Z_div_mod (Zpos m1 * 2 ^ 53) (Zpos m2) ltac:(lia)) as Hdiv.
  destruct (Z.div_eucl (Zpos m1 * 2 ^ 53) (Zpos m2)) as [q r].
  destruct Hdiv as [Hdiv Hr].
  change (2 ^ 52) with 4503599627370496 in *.
  change (2 ^ 53) with 9007199254740992 in *.
  assert (Hq : 4503599627370496 <= q < 4 * 4503599627370496) by nia.
  destruct q as [| q | q]; try lia.
  pose proof (digits2_pos_bounds q) as Hd.
  set (d := Zpos (digits2_pos q)) in *.
  assert (Hd' : 53 <= d <= 54).
  { split.
    - destruct (Z.le_gt_cases 53 d) as [| Hc]; [assumption |].
      assert (2 ^ d <= 2 ^ 52) by (apply Z.pow_le_mono_r; lia).
      change (2 ^ 52) with 4503599627370496 in *. lia.
    - destruct (Z.le_gt_cases d 54) as [| Hc]; [assumption |].
      assert (2 ^ 54 <= 2 ^ (d - 1)) by (apply Z.pow_le_mono_r; lia).
      change (2 ^ 54) with (4 * 4503599627370496) in *. lia. }
  destruct (@binary_round_aux_normal false q (e1 - e2 - 53)
              (new_location (Zpos m2) r) (Zpos m1 * 9007199254740992) (Zpos m2))
    as (m & e & Hres & Hm & He & Hb).
  - apply new_location_represents; lia.
  - fold d. lia.
  - fold d. lia.
  - fold d. lia.
  - fold d in He. exists m, e. split; [exact Hres |].
    change (2 ^ 52) with 4503599627370496 in *.
    change (2 ^ 53) with 9007199254740992 in *.
    split; [exact Hm |]. split; [lia | exact Hb].
Qed.

(** ** Primitive floats *)

(** A float between [2^-1000] and [2^1000] is positive and normal. *)
Lemma range_normal (T : float) :
  (0x1p-1000 <=? T)%float = true -> (T <=? 0x1p1000)%float = true ->
  exists m e, normal_pos T m e /\ -1052 <= e <= 948.
Proof.
  rewrite !leb_spec.
  change (Prim2SF 0x1p-1000) with (S754_finite false 4503599627370496 (-1052)).
  change (Prim2SF 0x1p1000) with (S754_finite false 4503599627370496 948).
  pose proof (Prim2SF_valid T) as Hvalid.
  destruct (Prim2SF T) as [s | s | | s m e] eqn:HT; try discriminate.
  - destruct s; discriminate.
  - destruct s; try discriminate.
    unfold SFleb, SFcompare. intros Hlo Hhi.
    assert (He : -1052 <= e <= 948).
    { destruct (Z.compare_spec (-1052) e), (Z.compare_spec e 948);
        try discriminate; lia. }
    exists m, e. split; [| exact He]. split; [exact HT |].
    cbn [valid_binary] in Hvalid. apply bounded_inv in Hvalid.
    destruct Hvalid as (_ & _ & Hd). specialize (Hd ltac:(lia)).
    pose proof (digits2_pos_bounds m) as Hm. rewrite Hd in Hm. exact Hm.
Qed.

Lemma sub_zero_normal (x : float) (m : positive) (e : Z) :
  normal_pos x m e -> (x - 0)%float = x.
Proof.
  intros [Hx _]. apply Prim2SF_inj. rewrite sub_spec, Hx. reflexivity.
Qed.

Lemma add_zero_normal (x : float) (m : positive) (e : Z) :
  normal_pos x m e -> (x + 0)%float = x.
Proof.
  intros [Hx _]. apply Prim2SF_inj. rewrite add_spec, Hx. reflexivity.
Qed.

Lemma is_zero_normal (x : float) (m : positive) (e : Z) :
  normal_pos x m e -> (x =? 0)%float = false.
Proof.
  intros [Hx _]. rewrite eqb_spec, Hx. reflexivity.
Qed.

Lemma zero_ltb_normal (x : float) (m : positive) (e : Z) :
  normal_pos x m e -> (0 <? x)%float = true.
Proof.
  intros [Hx _]. rewrite ltb_spec, Hx. reflexivity.
Qed.

Lemma zero_mul_normal (x : float) (m : positive) (e : Z) :
  normal_pos x m e -> (0 * x)%float = 0%float.
Proof.
  intros [Hx _]. apply Prim2SF_inj. rewrite mul_spec, Hx. reflexivity.
Qed.

Lemma ltb_normal (x y : float) (mx my : positive) (ex ey b : Z) :
  normal_pos x mx ex -> normal_pos y my ey -> b <= ex -> b <= ey ->
  Zpos mx * 2 ^ (ex - b) < Zpos my * 2 ^ (ey - b) ->
  (x <? y)%float = true.
Proof.
  intros [Hx Hmx] [Hy Hmy] Hbx Hby Hlt.
  rewrite ltb_spec, Hx, Hy. now apply SFltb_normal with (b := b).
Qed.

(** The spacing [T / 999]. *)
Lemma step_normal (T : float) (mT : positive) (eT : Z) :
  normal_pos T mT eT -> -1052 <= eT <= 948 ->
  exists ms es,
    normal_pos (T / float_of_nat 999) ms es /\
    eT - 10 <= es <= eT - 8 /\
    2 * Z.abs (Zpos ms * 2 ^ (es - (eT - 10)) * (999 * 2 ^ 43) - Zpos mT * 2 ^ 53)
      <= 2 ^ (es - (eT - 10)) * (999 * 2 ^ 43).
Proof.
  intros [HT HmT] HeT.
  assert (H999 : Prim2SF (float_of_nat 999)
                 = S754_finite false 8787296929185792 (-43)) by reflexivity.
  destruct (@SF64div_normal mT 8787296929185792 eT (-43) HmT)
    as (ms & es & Hres & Hms & Hes & Hb).
  - change (2 ^ 52) with 4503599627370496. change (2 ^ 53) with 9007199254740992. lia.
  - lia.
  - lia.
  - exists ms, es. split; [| split].
    + split; [| exact Hms]. rewrite div_spec, HT, H999. exact Hres.
    + lia.
    + replace (eT - -43 - 53) with (eT - 10) in Hb by lia.
      change (999 * 2 ^ 43) with 8787296929185792. exact Hb.
Qed.

Lemma nat_float_table : forallb nat_float_ok (seq 1 999) = true.
Proof. vm_compute. reflexivity. Qed.

Lemma float_of_nat_normal (i : nat) :
  (1 <= i <= 999)%nat ->
  exists m e,
    normal_pos (float_of_nat i) m e /\ -52 <= e <= -43 /\
    Zpos m * 2 ^ (e + 52) = Z.of_nat i * 2 ^ 52.
Proof.
  intros Hi.
  pose proof nat_float_table as Htab. rewrite forallb_forall in Htab.
  specialize (Htab i). rewrite in_seq in Htab. specialize (Htab ltac:(lia)).
  unfold nat_float_ok in Htab.
  destruct (Prim2SF (float_of_nat i)) as [s | s | | s m e] eqn:Hi'; try discriminate.
  destruct s; [discriminate |].
  apply andb_prop in Htab. destruct Htab as [Htab H5].
  apply andb_prop in Htab. destruct Htab as [Htab H4].
  apply andb_prop in Htab. destruct Htab as [Htab H3].
  apply andb_prop in Htab. destruct Htab as [H1 H2].
  apply Z.eqb_eq in H1. apply Z.leb_le in H2, H3, H4. apply Z.ltb_lt in H5.
  exists m, e. split; [split; [exact Hi' | lia] |]. split; [lia | exact H1].
Qed.

(** The product [i * step], in units of [2^(es - 52)]: a normal float within
    a relative error of [2^-53] of the exact product. *)
Lemma product_normal (s : float) (ms : positive) (es : Z) (i : nat) :
  normal_pos s ms es -> -1062 <= es <= 940 -> (1 <= i <= 999)%nat ->
  exists m e,
    normal_pos (float_of_nat i * s)%float m e /\
    es - 52 <= e /\
    2 ^ 53 * Z.abs (Zpos m * 2 ^ (e - (es - 52)) - Z.of_nat i * 2 ^ 52 * Zpos ms)
      <= Zpos m * 2 ^ (e - (es - 52)).
Proof.
  intros [Hs Hms] Hes Hi.
  destruct (float_of_nat_normal Hi) as (mi & ei & [Hfi Hmi] & Hei & Hval).
  destruct (@SF64mul_normal mi ms ei es Hmi Hms ltac:(lia) ltac:(lia))
    as (m & e & Hres & Hm & He & Hb).
  exists m, e.
  split; [split; [rewrite mul_spec, Hfi, Hs; exact Hres | exact Hm] |].
  split; [lia |].
  set (k := e - (ei + es)) in *.
  replace (e - (es - 52)) with (k + (ei + 52)) by (unfold k; lia).
  rewrite Z.pow_add_r by (unfold k; lia).
  assert (HA : 0 < 2 ^ k) by (apply Z.pow_pos_nonneg; unfold k; lia).
  assert (HB : 0 < 2 ^ (ei + 52)) by (apply Z.pow_pos_nonneg; lia).
  set (A := 2 ^ k) in *. set (B := 2 ^ (ei + 52)) in *.
  rewrite <- Hval.
  change (2 ^ 52) with 4503599627370496 in *.
  change (2 ^ 53) with 9007199254740992 in *.
  replace (Zpos m * (A * B) - Zpos mi * B * Zpos ms)
    with ((Zpos m * A - Zpos mi * Zpos ms) * B) by ring.
  rewrite Z.abs_mul, (Z.abs_eq B) by lia.
  set (D := Z.abs (Zpos m * A - Zpos mi * Zpos ms)) in *.
  assert (HD : 0 <= D) by apply Z.abs_nonneg.
  assert (H1 : 2 * (D * B) <= A * B) by nia.
  assert (H2 : 4503599627370496 * (A * B) <= Zpos m * (A * B)) by nia.
  lia.
Qed.

(** Adding the start [0] to a product changes nothing. *)
Lemma product_add_zero (s : float) (ms : positive) (es : Z) (i : nat) :
  normal_pos s ms es -> -1062 <= es <= 940 -> (i <= 999)%nat ->
  (float_of_nat i * s + 0)%float = (float_of_nat i * s)%float.
Proof.
  intros Hs Hes Hi. destruct i as [| i].
  - change (float_of_nat 0) with 0%float. now rewrite (zero_mul_normal Hs).
  - destruct (@product_normal s ms es (S i) Hs Hes ltac:(lia)) as (m & e & Hp & _).
    exact (add_zero_normal Hp).
Qed.

(** The [i]-th sample [i * step + 0]. *)
Lemma sample_normal (s : float) (ms : positive) (es : Z) (i : nat) :
  normal_pos s ms es -> -1062 <= es <= 940 -> (1 <= i <= 999)%nat ->
  exists m e,
    normal_pos (float_of_nat i * s + 0)%float m e /\
    es - 52 <= e /\
    2 ^ 53 * Z.abs (Zpos m * 2 ^ (e - (es - 52)) - Z.of_nat i * 2 ^ 52 * Zpos ms)
      <= Zpos m * 2 ^ (e - (es - 52)).
Proof.
  intros Hs Hes Hi.
  rewrite (@product_add_zero s ms es i Hs Hes ltac:(lia)).
  now apply product_normal.
Qed.

(** Consecutive samples are strictly ordered. *)
Lemma sample_lt_next (s : float) (ms : positive) (es : Z) (i : nat) :
  normal_pos s ms es -> -1062 <= es <= 940 -> (1 <= i <= 998)%nat ->
  (float_of_nat i * s + 0 <? float_of_nat (S i) * s + 0)%float = true.
Proof.
  intros Hs Hes Hi.
  destruct (@sample_normal s ms es i Hs Hes ltac:(lia)) as (ma & ea & Ha & Hea & Hba).
  destruct (@sample_normal s ms es (S i) Hs Hes ltac:(lia)) as (mb & eb & Hb & Heb & Hbb).
  apply ltb_normal with (mx := ma) (ex := ea) (my := mb) (ey := eb) (b := es - 52);
    try assumption.
  destruct Hs as [_ Hms].
  rewrite Nat2Z.inj_succ in Hbb.
  set (Va := Zpos ma * 2 ^ (ea - (es - 52))) in *.
  set (Vb := Zpos mb * 2 ^ (eb - (es - 52))) in *.
  change (2 ^ 52) with 4503599627370496 in *.
  change (2 ^ 53) with 9007199254740992 in *.
  assert (HC : 0 < 4503599627370496 * Zpos ms) by lia.
  set (C := 4503599627370496 * Zpos ms) in *.
  replace (Z.of_nat i * 4503599627370496 * Zpos ms) with (Z.of_nat i * C) in Hba
    by (unfold C; ring).
  replace (Z.succ (Z.of_nat i) * 4503599627370496 * Zpos ms)
    with (Z.of_nat i * C + C) in Hbb by (unfold C; ring).
  assert (HX : 0 <= Z.of_nat i * C <= 998 * C) by nia.
  set (X := Z.of_nat i * C) in *.
  lia.
Qed.

(** The last computed sample stays below the end point. *)
Lemma sample_lt_stop (T : float) (mT : positive) (eT : Z) :
  normal_pos T mT eT -> -1052 <= eT <= 948 ->
  (float_of_nat 998 * (T / float_of_nat 999) + 0 <? T)%float = true.
Proof.
  intros HT HeT.
  destruct (step_normal HT HeT) as (ms & es & Hs & Hes & Hbs).
  destruct (@sample_normal _ ms es 998 Hs ltac:(lia) ltac:(lia))
    as (m & e & Hy & He & Hby).
  apply ltb_normal with (mx := m) (ex := e) (my := mT) (ey := eT) (b := es - 52);
    try assumption; try lia.
  destruct Hs as [_ Hms]. destruct HT as [_ HmT].
  set (V := Zpos m * 2 ^ (e - (es - 52))) in *.
  change (Z.of_nat 998) with 998 in Hby.
  change (999 * 2 ^ 43) with 8787296929185792 in Hbs.
  change (2 ^ 52) with 4503599627370496 in *.
  change (2 ^ 53) with 9007199254740992 in *.
  assert (Hk : es = eT - 10 \/ es = eT - 9 \/ es = eT - 8) by lia.
  destruct Hk as [-> | [-> | ->]].
  - replace (eT - 10 - (eT - 10)) with 0 in Hbs by lia.
    replace (eT - (eT - 10 - 52)) with 62 by lia.
    change (2 ^ 0) with 1 in Hbs. change (2 ^ 62) with 4611686018427387904. lia.
  - replace (eT - 9 - (eT - 10)) with 1 in Hbs by lia.
    replace (eT - (eT - 9 - 52)) with 61 by lia.
    change (2 ^ 1) with 2 in Hbs. change (2 ^ 61) with 2305843009213693952. lia.
  - replace (eT - 8 - (eT - 10)) with 2 in Hbs by lia.
    replace (eT - (eT - 8 - 52)) with 60 by lia.
    change (2 ^ 2) with 4 in Hbs. change (2 ^ 60) with 1152921504606846976. lia.
Qed.

Lemma first_sample (s : float) (ms : positive) (es : Z) :
  normal_pos s ms es -> (float_of_nat 0 * s + 0)%float = 0%float.
Proof.
  intros Hs. change (float_of_nat 0) with 0%float.
  rewrite (zero_mul_normal Hs). reflexivity.
Qed.

Lemma first_sample_lt (s : float) (ms : positive) (es : Z) :
  normal_pos s ms es -> -1062 <= es <= 940 ->
  (float_of_nat 0 * s + 0 <? float_of_nat 1 * s + 0)%float = true.
Proof.
  intros Hs Hes. rewrite (first_sample Hs).
  destruct (@sample_normal s ms es 1 Hs Hes ltac:(lia)) as (m & e & Hy & _).
  exact (zero_ltb_normal Hy).
Qed.

End Binary64Facts.

(** ** [np.linspace] *)

Lemma length_arange (num : nat) : length (arange num) = num.
Proof. unfold arange. rewrite length_map. apply length_seq. Qed.

Lemma length_set_last (y : list float) (stop : float) :
  length (set_last y stop) = length y.
Proof.
  destruct y as [| a y]; [reflexivity |].
  unfold set_last. rewrite length_app. simpl length at 2.
  assert (H : forall (b : float) l, length (removelast (b :: l)) = length l).
  { intros b l. revert b. induction l as [| x l IH]; intros b; [reflexivity |].
    change (removelast (b :: x :: l)) with (b :: removelast (x :: l)).
    cbn [length]. now rewrite IH. }
  rewrite H. simpl. lia.
Qed.

Lemma last_set_last (a : float) (y : list float) (stop d : float) :
  last (set_last (a :: y) stop) d = stop.
Proof. unfold set_last. apply last_last. Qed.

Lemma length_linspace (start stop : float) (num : nat) :
  length (linspace start stop num) = num.
Proof.
  unfold linspace.
  destruct (1 <? num)%nat; rewrite ?length_set_last, length_map;
    destruct (0 <? pred num)%nat; try destruct (is_zero _);
    rewrite length_map; apply length_arange.
Qed.

(** The sample times of [simulate] have a first entry and at least one
    more. *)
Lemma linspace_1000_cons (stop : float) :
  exists t0 rest, linspace 0 stop 1000 = t0 :: rest /\ rest <> [].
Proof.
  pose proof (length_linspace 0 stop 1000) as H.
  destruct (linspace 0 stop 1000) as [| t0 [| t1 rest]]; try discriminate H.
  exists t0, (t1 :: rest). split; [reflexivity | discriminate].
Qed.

Lemma set_last_app (y : list float) (a stop : float) :
  set_last (y ++ [a]) stop = y ++ [stop].
Proof.
  unfold set_last. rewrite removelast_last.
  destruct y; reflexivity.
Qed.

(** The grid as a list of 999 computed samples followed by the end point. *)
Lemma linspace_samples (T : float) :
  (T - 0)%float = T ->
  is_zero (T / float_of_nat 999) = false ->
  linspace 0 T 1000
  = map (fun i => (float_of_nat i * (T / float_of_nat 999) + 0)%float) (seq 0 999)
    ++ [T].
Proof.
  intros Hsub Hstep. unfold linspace.
  change (pred 1000) with 999. change (0 <? 999) with true. change (1 <? 1000) with true.
  cbv iota. rewrite Hsub, Hstep. unfold arange.
  change 1000 with (S 999). rewrite seq_S, !map_app. cbn [map].
  rewrite set_last_app, !map_map. reflexivity.
Qed.

Lemma strictly_increasing_samples (F : nat -> float) (T : float) (n : nat) :
  forall a : nat,
    (forall i, a <= i -> S i < a + S n -> (F i <? F (S i))%float = true) ->
    (F (a + n)%nat <? T)%float = true ->
    strictly_increasing (map F (seq a (S n)) ++ [T]) = true.
Proof.
  induction n as [| n IH]; intros a Hstep Hlast.
  - cbn. rewrite Nat.add_0_r in Hlast. now rewrite Hlast.
  - change (seq a (S (S n))) with (a :: seq (S a) (S n)).
    cbn [map app]. cbn [strictly_increasing].
    specialize (IH (S a)).
    change (seq (S a) (S n)) with (S a :: seq (S (S a)) n) in *.
    cbn [map app] in *.
    rewrite (Hstep a) by lia. cbn [andb].
    apply IH.
    + intros i Hi Hi'. apply Hstep; lia.
    + replace (S a + n) with (a + S n) by lia. exact Hlast.
Qed.

(** For a horizon [T] between [2^-1000] and [2^1000] the grid of [simulate]
    starts at zero, has the float64 product [i * (T / 999)] as entry [i],
    ends at [T] and is strictly increasing. *)
Lemma linspace_in_range (T : float) :
  in_range T = true ->
  linspace 0 T 1000
  = map (fun i => (float_of_nat i * (T / float_of_nat 999))%float) (seq 0 999)
    ++ [T] /\
  nth 0 (linspace 0 T 1000) T = 0%float /\
  strictly_increasing (linspace 0 T 1000) = true.
Proof.
  intros HT. unfold in_range in HT. apply andb_prop in HT. destruct HT as [Hlo Hhi].
  destruct (Binary64Facts.range_normal Hlo Hhi) as (mT & eT & HT & HeT).
  destruct (Binary64Facts.step_normal HT HeT) as (ms & es & Hs & Hes & _).
  assert (Hes' : (-1062 <= es <= 940)%Z) by lia.
  rewrite (linspace_samples (Binary64Facts.sub_zero_normal HT)
             (Binary64Facts.is_zero_normal Hs)).
  split; [| split].
  - f_equal. apply map_ext_in. intros i Hi. apply in_seq in Hi.
    apply (@Binary64Facts.product_add_zero _ ms es i Hs Hes'). lia.
  - change (seq 0 999) with (0 :: seq 1 998). cbn [map app nth].
    exact (Binary64Facts.first_sample Hs).
  - apply (@strictly_increasing_samples
             (fun i => (float_of_nat i * (T / float_of_nat 999) + 0)%float) T 998 0).
    + intros i _ Hi. destruct i as [| i].
      * exact (Binary64Facts.first_sample_lt Hs Hes').
      * apply (Binary64Facts.sample_lt_next Hs Hes'). lia.
    + exact (Binary64Facts.sample_lt_stop HT HeT).
Qed.

(** ** The Euler solver meets the contract *)

Lemma length_euler_step (h : float) (y dydt : list float) :
  length dydt = length y -> length (euler_step h y dydt) = length y.
Proof.
  intros H. unfold euler_step. rewrite length_map, length_combine, H.
  apply Nat.min_id.
Qed.

Lemma euler_rows_shape (func : derivative) (rest : list float) :
  forall y t rows,
    euler_rows func y t rest = Ok rows ->
    length rows = length rest /\
    Forall (fun row => length row = length y) rows.
Proof.
  induction rest as [| t' rest IH]; intros y t rows H; simpl in H.
  - injection H as <-. split; [reflexivity | constructor].
  - apply bind_Ok_inv in H. destruct H as (dydt & _ & H).
    destruct (Nat.eqb_spec (length dydt) (length y)) as [Hlen | _];
      [| discriminate H].
    apply bind_Ok_inv in H. destruct H as (rows' & Hrows & H).
    injection H as <-.
    apply IH in Hrows. destruct Hrows as [Hn Hall].
    assert (Hy : length (euler_step (t' - t) y (map value dydt)) = length y).
    { apply length_euler_step. now rewrite length_map. }
    split.
    + simpl. now rewrite Hn.
    + constructor; [exact Hy |].
      rewrite Hy in Hall. exact Hall.
Qed.

Lemma euler_odeint_shape : shape_spec euler_odeint.
Proof.
  intros func y0 [| t0 rest] solution H; simpl in H.
  - injection H as <-. split; [reflexivity | constructor].
  - apply bind_Ok_inv in H. destruct H as (rows & Hrows & H).
    injection H as <-. apply euler_rows_shape in Hrows.
    destruct Hrows as [Hn Hall]. split.
    + simpl. now rewrite Hn.
    + constructor; [reflexivity | exact Hall].
Qed.

Lemma euler_odeint_first_row : first_row_spec euler_odeint.
Proof.
  intros func y0 [| t0 rest] solution H Ht; [now contradiction Ht |].
  simpl in H. apply bind_Ok_inv in H. destruct H as (rows & _ & H).
  injection H as <-. reflexivity.
Qed.

Lemma euler_odeint_propagation : propagation_spec euler_odeint.
Proof.
  intros func y0 t0 [| t1 rest] e _ Hrest _ H; [now contradiction Hrest |].
  simpl. rewrite H. reflexivity.
Qed.

(** ** The constructors *)

(** C1 (as amended): none of the three constructors validates anything.
    For every choice of parameters, initial state and time span, zero,
    negative and non-finite values included, construction succeeds and the
    instance holds the arguments unchanged. *)
Theorem construction_always_succeeds :
  forall (p q r : float) (ic : list float) (ts : float),
    SpringMassDamper p q r ic ts
      = Ok {| initial_conditions := ic; time_span := ts;
              kind := SpringMassDamperModel p q r |} /\
    SimplePendulum p q ic ts
      = Ok {| initial_conditions := ic; time_span := ts;
              kind := SimplePendulumModel p q |} /\
    RotationalInertia p q ic ts
      = Ok {| initial_conditions := ic; time_span := ts;
              kind := RotationalInertiaModel p q |}.
Proof. intros p q r ic ts. repeat split. Qed.

(** C1, refuted as stated: a spring with [m=0], a pendulum with [l=0], a
    rotating body with [I=0] and a spring of negative mass are all
    constructed without any exception. *)
Lemma zero_parameters_are_accepted :
  ~ raises (SpringMassDamper 0 0.5 2 [1%float; 0%float] 20) /\
  ~ raises (SimplePendulum 0 0x1.39eb851eb851fp+3
              [0x1.921fb54442d18p-1%float; 0%float] 20) /\
  ~ raises (RotationalInertia 0 1 [0%float; 0%float] 20) /\
  ~ raises (SpringMassDamper (-1) 0.5 2 [1%float; 0%float] 20) /\
  ~ raises (SpringMassDamper infinity nan 2 [1%float; 0%float] 20).
Proof. repeat split; intros [e H]; discriminate H. Qed.

(** ** The derivative laws *)

(** C2: for every state [[x, v]], every time [t] and every
    [SpringMassDamper] with [m] nonzero, [equations] returns
    [[v, (-c*v - k*x) / m]]: the second entry carries exactly that float64
    value (as a NumPy scalar when [x] or [v] is one, as a Python float
    otherwise). *)
Theorem SpringMassDamper_equations :
  forall (np_sin : float -> float) (m c k : float) (ic : list float) (ts : float)
         (self : instance) (x v t : scalar),
    SpringMassDamper m c k ic ts = Ok self ->
    is_zero m = false ->
    exists dvdt,
      equations np_sin self [x; v] t = Ok [v; dvdt] /\
      value dvdt = ((- c * value v - k * value x) / m)%float.
Proof.
  intros np_sin m c k ic ts self x v t Hself Hm.
  injection Hself as <-. unfold equations. cbn [kind set_attributes].
  destruct x as [x | x], v as [v | v]; cbn [py_neg py_mul py_sub py_truediv value bind];
    rewrite ?Hm; eexists; split; reflexivity.
Qed.

(** C3: for every state [[theta, omega]], every time [t] and every
    [SimplePendulum] with [l] nonzero, [equations] returns
    [[omega, -(g / l) * sin(theta)]]. *)
Theorem SimplePendulum_equations :
  forall (np_sin : float -> float) (l g : float) (ic : list float) (ts : float)
         (self : instance) (theta omega t : scalar),
    SimplePendulum l g ic ts = Ok self ->
    is_zero l = false ->
    equations np_sin self [theta; omega] t
      = Ok [omega; NpFloat64 (- (g / l) * np_sin (value theta))].
Proof.
  intros np_sin l g ic ts self theta omega t Hself Hl.
  injection Hself as <-. unfold equations. cbn [kind set_attributes].
  unfold py_truediv. rewrite Hl. reflexivity.
Qed.

(** C4: for every state [[theta, omega]], every time [t] and every
    [RotationalInertia] with [I] nonzero, [equations] returns
    [[omega, torque / I]]. *)
Theorem RotationalInertia_equations :
  forall (np_sin : float -> float) (I' torque : float) (ic : list float)
         (ts : float) (self : instance) (theta omega t : scalar),
    RotationalInertia I' torque ic ts = Ok self ->
    is_zero I' = false ->
    equations np_sin self [theta; omega] t = Ok [omega; PyFloat (torque / I')].
Proof.
  intros np_sin I' torque ic ts self theta omega t Hself HI.
  injection Hself as <-. unfold equations. cbn [kind set_attributes].
  unfold py_truediv. rewrite HI. reflexivity.
Qed.

(** Where a zero parameter is noticed instead: the pendulum and the rotating
    body divide two Python floats, so their [equations] raise
    [ZeroDivisionError]; the spring divides a NumPy scalar when the state
    comes from [odeint], which raises nothing. *)
Lemma zero_length_raises_at_evaluation :
  forall (np_sin : float -> float) (l g : float) (ic : list float) (ts : float)
         (theta omega t : scalar),
    is_zero l = true ->
    equations np_sin {| initial_conditions := ic; time_span := ts;
                        kind := SimplePendulumModel l g |} [theta; omega] t
      = Raise ZeroDivisionError.
Proof.
  intros np_sin l g ic ts theta omega t Hl.
  unfold equations. cbn [kind]. unfold py_truediv. rewrite Hl. reflexivity.
Qed.

Lemma zero_inertia_raises_at_evaluation :
  forall (np_sin : float -> float) (I' torque : float) (ic : list float)
         (ts : float) (theta omega t : scalar),
    is_zero I' = true ->
    equations np_sin {| initial_conditions := ic; time_span := ts;
                        kind := RotationalInertiaModel I' torque |}
              [theta; omega] t
      = Raise ZeroDivisionError.
Proof.
  intros np_sin I' torque ic ts theta omega t HI.
  unfold equations. cbn [kind]. unfold py_truediv. rewrite HI. reflexivity.
Qed.

Lemma zero_mass_does_not_raise_on_arrays :
  forall (np_sin : float -> float) (m c k : float) (ic : list float) (ts : float)
         (x v : float) (t : scalar),
    equations np_sin {| initial_conditions := ic; time_span := ts;
                        kind := SpringMassDamperModel m c k |}
              [NpFloat64 x; NpFloat64 v] t
      = Ok [NpFloat64 v; NpFloat64 ((- c * v - k * x) / m)].
Proof. reflexivity. Qed.

(** Each derivative law returns as many entries as the state has, namely
    two. *)
Lemma equations_length (np_sin : float -> float) (self : instance)
    (y : list scalar) (t : scalar) (dydt : list scalar) :
  equations np_sin self y t = Ok dydt ->
  length dydt = length y /\ length y = 2.
Proof.
  unfold equations.
  destruct (kind self) as [| m c k | l g | I' torque]; [discriminate | | |];
    destruct y as [| a [| b [| c' y]]]; try discriminate;
    intros H; apply bind_Ok_inv in H; destruct H as (r & _ & H);
    injection H as <-; split; reflexivity.
Qed.

(** ** [simulate] *)

Section Simulation.

Variable np_sin : float -> float.
Variable odeint : derivative -> list float -> list float -> result (list (list float)).

Hypothesis odeint_shape : shape_spec odeint.
Hypothesis odeint_first_row : first_row_spec odeint.
Hypothesis odeint_propagation : propagation_spec odeint.

(** What [simulate] returns is the grid of [np.linspace] and what [odeint]
    returned for it. *)
Lemma simulate_Ok_inv (self : instance) (times : list float)
    (states : list (list float)) :
  simulate np_sin odeint self = Ok (times, states) ->
  times = linspace 0 self.(time_span) 1000 /\
  odeint (equations np_sin self) self.(initial_conditions) times = Ok states.
Proof.
  unfold simulate. intros H.
  apply bind_Ok_inv in H. destruct H as (solution & Hsol & H).
  injection H as <- <-. split; [reflexivity | exact Hsol].
Qed.

(** C5: the first state of the trajectory [simulate] returns is the
    initial condition of the instance, float for float. *)
Theorem simulate_initial_state :
  forall (self : instance) (times : list float) (states : list (list float)),
    simulate np_sin odeint self = Ok (times, states) ->
    nth_error states 0 = Some self.(initial_conditions).
Proof.
  intros self times states H.
  apply simulate_Ok_inv in H. destruct H as [Htimes Hsol].
  apply (odeint_first_row Hsol).
  subst times. destruct (linspace_1000_cons self.(time_span)) as (t0 & rest & -> & _).
  discriminate.
Qed.



(** C8: for each of the three catalogue classes the derivative has as many
    entries as the state it is given, namely two, and when the initial
    state has two entries every one of the 1000 rows of the states array
    [simulate] returns has exactly two entries. *)
Theorem states_have_two_columns :
  forall self : instance,
    reference_system self = true ->
    (forall y t dydt,
        equations np_sin self y t = Ok dydt ->
        length dydt = length y /\ length dydt = 2) /\
    (length self.(initial_conditions) = 2 ->
     forall times states,
       simulate np_sin odeint self = Ok (times, states) ->
       length states = 1000 /\ Forall (fun row => length row = 2) states).
Proof.
  intros self _. split.
  - intros y t dydt H. apply equations_length in H. lia.
  - intros Hic times states H.
    apply simulate_Ok_inv in H. destruct H as [Htimes Hsol].
    apply odeint_shape in Hsol. destruct Hsol as [Hrows Hcols]. split.
    + rewrite Hrows, Htimes. apply length_linspace.
    + rewrite Hic in Hcols. exact Hcols.
Qed.


(** A pendulum of length zero is constructed without complaint; it is
    [simulate] that fails, with the [ZeroDivisionError] of the first
    derivative evaluation. *)
Lemma zero_length_simulate_raises :
  forall (l g a b ts : float),
    is_zero l = true ->
    in_range ts = true ->
    simulate np_sin odeint
      {| initial_conditions := [a; b]; time_span := ts;
         kind := SimplePendulumModel l g |}
    = Raise ZeroDivisionError.
Proof.
  intros l g a b ts Hl Hts. unfold simulate. cbn [time_span initial_conditions].
  destruct (linspace_in_range ts Hts) as (_ & _ & Hinc).
  destruct (linspace_1000_cons ts) as (t0 & rest & Ht & Hrest).
  rewrite Ht in *.
  rewrite (@odeint_propagation _ [a; b] t0 rest ZeroDivisionError);
    try assumption; try reflexivity; try discriminate.
  now apply zero_length_raises_at_evaluation.
Qed.

End Simulation.

(** ** Concrete runs *)

Lemma run_spec (self : instance) :
  run self <> ([], []) ->
  simulate sin_taylor euler_odeint self = Ok (fst (run self), snd (run self)).
Proof.
  unfold run. destruct (simulate sin_taylor euler_odeint self) as [[times states] | e].
  - reflexivity.
  - intros H. now contradiction H.
Qed.

Lemma SpringMassDamper_equations_witness :
  exists dvdt,
    equations sin_taylor spring_mass_damper [NpFloat64 1; NpFloat64 0] (PyFloat 0)
      = Ok [NpFloat64 0; dvdt] /\
    value dvdt = ((- 0.5 * 0 - 2 * 1) / 1)%float.
Proof.
  apply (@SpringMassDamper_equations sin_taylor 1 0.5 2 [1%float; 0%float] 20);
    reflexivity.
Defined.

Lemma SimplePendulum_equations_witness :
  equations sin_taylor simple_pendulum
            [NpFloat64 0x1.921fb54442d18p-1; NpFloat64 0] (PyFloat 0)
    = Ok [NpFloat64 0;
          NpFloat64 (- (0x1.39eb851eb851fp+3 / 1)
                     * sin_taylor 0x1.921fb54442d18p-1)].
Proof.
  apply (@SimplePendulum_equations sin_taylor 1 0x1.39eb851eb851fp+3
           [0x1.921fb54442d18p-1%float; 0%float] 20);
    reflexivity.
Defined.

Lemma RotationalInertia_equations_witness :
  equations sin_taylor rotational_inertia [NpFloat64 0; NpFloat64 0] (PyFloat 0)
    = Ok [NpFloat64 0; PyFloat (1 / 1)].
Proof.
  apply (@RotationalInertia_equations sin_taylor 1 1 [0%float; 0%float] 20);
    reflexivity.
Defined.

Lemma simulate_initial_state_witness :
  nth_error (snd (run spring_mass_damper)) 0 = Some [1%float; 0%float].
Proof.
  apply (@simulate_initial_state sin_taylor euler_odeint euler_odeint_first_row
           spring_mass_damper (fst (run spring_mass_damper))).
  apply run_spec. vm_compute. discriminate.
Defined.


Lemma states_have_two_columns_witness :
  (forall y t dydt,
      equations sin_taylor rotational_inertia y t = Ok dydt ->
      length dydt = length y /\ length dydt = 2) /\
  length (snd (run rotational_inertia)) = 1000 /\
  Forall (fun row => length row = 2) (snd (run rotational_inertia)).
Proof.
  destruct (@states_have_two_columns sin_taylor euler_odeint euler_odeint_shape
              rotational_inertia eq_refl) as [Hd Hs].
  split; [exact Hd |].
  apply (Hs eq_refl (fst (run rotational_inertia))).
  apply run_spec. vm_compute. discriminate.
Defined.




(** * Further properties of the code *)

(** ** Exceptions of the derivative laws *)

(** The three catalogue classes raise [ValueError] exactly on a state that
    does not have two entries (the tuple unpacking [x, v = y]). *)
Theorem equations_ValueError_iff :
  forall (np_sin : float -> float) (self : instance) (y : list scalar) (t : scalar),
    reference_system self = true ->
    (equations np_sin self y t = Raise ValueError <-> length y <> 2).
Proof.
  intros np_sin self y t Href. unfold reference_system in Href. unfold equations.
  destruct (kind self) as [| m c k | l g | I' torque]; [discriminate Href | | |];
    destruct y as [| a [| b [| z y]]]; cbn [length];
    try (split; [intros _; lia | reflexivity]).
  - split; [| intros H; now contradiction H].
    destruct a, b; cbn [py_neg py_mul py_sub py_truediv value bind];
      try destruct (is_zero m); discriminate.
  - split; [| intros H; now contradiction H].
    unfold py_truediv. destruct (is_zero l); discriminate.
  - split; [| intros H; now contradiction H].
    unfold py_truediv. destruct (is_zero I'); discriminate.
Qed.

Lemma equations_ValueError_iff_witness :
  equations sin_taylor spring_mass_damper [NpFloat64 1] (PyFloat 0) = Raise ValueError
  <-> length [NpFloat64 1] <> 2.
Proof. apply equations_ValueError_iff. reflexivity. Defined.

(** On a state of two entries, the pendulum and the rotating body raise
    [ZeroDivisionError] exactly when [l], respectively [I], is zero; the
    spring raises it exactly when [m] is zero and both state entries are
    Python floats (with a NumPy scalar in the state the division yields an
    infinity or a NaN instead). *)
Theorem equations_ZeroDivisionError_iff :
  forall (np_sin : float -> float) (ic : list float) (ts p q r : float)
         (y : list scalar) (t : scalar),
    length y = 2 ->
    (equations np_sin {| initial_conditions := ic; time_span := ts;
                         kind := SpringMassDamperModel p q r |} y t
       = Raise ZeroDivisionError
     <-> is_zero p = true /\ python_floats y = true) /\
    (equations np_sin {| initial_conditions := ic; time_span := ts;
                         kind := SimplePendulumModel p q |} y t
       = Raise ZeroDivisionError
     <-> is_zero p = true) /\
    (equations np_sin {| initial_conditions := ic; time_span := ts;
                         kind := RotationalInertiaModel p q |} y t
       = Raise ZeroDivisionError
     <-> is_zero p = true).
Proof.
  intros np_sin ic ts p q r y t Hy.
  destruct y as [| a [| b [| z y]]]; try discriminate Hy.
  unfold equations. cbn [kind]. split; [| split].
  - destruct a as [x | x], b as [v | v];
      cbn [py_neg py_mul py_sub py_truediv value bind python_floats forallb andb];
      try (split; [discriminate | intros [_ H]; discriminate H]).
    destruct (is_zero p); split; try discriminate; try reflexivity.
    + intros _. split; reflexivity.
    + intros [H _]. discriminate H.
  - unfold py_truediv. destruct (is_zero p); cbn [bind]; split;
      try discriminate; reflexivity.
  - unfold py_truediv. destruct (is_zero p); cbn [bind]; split;
      try discriminate; reflexivity.
Qed.

Lemma equations_ZeroDivisionError_iff_witness :
  (equations sin_taylor {| initial_conditions := [1%float; 0%float];
                           time_span := 20%float;
                           kind := SpringMassDamperModel 0 0.5 2 |}
             [PyFloat 1; PyFloat 0] (PyFloat 0)
     = Raise ZeroDivisionError
   <-> is_zero 0 = true /\ python_floats [PyFloat 1; PyFloat 0] = true) /\
  (equations sin_taylor {| initial_conditions := [1%float; 0%float];
                           time_span := 20%float;
                           kind := SimplePendulumModel 0 0.5 |}
             [PyFloat 1; PyFloat 0] (PyFloat 0)
     = Raise ZeroDivisionError
   <-> is_zero 0 = true) /\
  (equations sin_taylor {| initial_conditions := [1%float; 0%float];
                           time_span := 20%float;
                           kind := RotationalInertiaModel 0 0.5 |}
             [PyFloat 1; PyFloat 0] (PyFloat 0)
     = Raise ZeroDivisionError
   <-> is_zero 0 = true).
Proof.
  exact (@equations_ZeroDivisionError_iff sin_taylor [1%float; 0%float] 20 0 0.5 2
           [PyFloat 1; PyFloat 0] (PyFloat 0) eq_refl).
Defined.

(** The systems are autonomous: no derivative law looks at the time it is
    given. *)
Theorem equations_autonomous :
  forall (np_sin : float -> float) (self : instance) (y : list scalar)
         (t t' : scalar),
    equations np_sin self y t = equations np_sin self y t'.
Proof.
  intros np_sin self y t t'. unfold equations.
  destruct (kind self); reflexivity.
Qed.

(** ** Exceptions and shape of [simulate] *)

Section SimulationErrors.

Variable np_sin : float -> float.
Variable odeint : derivative -> list float -> list float -> result (list (list float)).

Hypothesis odeint_shape : shape_spec odeint.
Hypothesis odeint_propagation : propagation_spec odeint.

(** An exception of the derivative at the initial state is the exception of
    [simulate]. *)
Lemma simulate_first_evaluation (self : instance) (e : exception) :
  self.(initial_conditions) <> [] ->
  in_range self.(time_span) = true ->
  equations np_sin self (map NpFloat64 self.(initial_conditions)) (PyFloat 0)
    = Raise e ->
  simulate np_sin odeint self = Raise e.
Proof.
  intros Hic Hts He. unfold simulate.
  destruct (linspace_in_range self.(time_span) Hts) as (_ & _ & Hinc).
  destruct (linspace_1000_cons self.(time_span)) as (t0 & rest & Ht & Hrest).
  rewrite Ht in *.
  rewrite (@odeint_propagation _ self.(initial_conditions) t0 rest e Hic Hrest Hinc);
    [reflexivity |].
  rewrite (equations_autonomous np_sin self _ (PyFloat t0) (PyFloat 0)). exact He.
Qed.

(** A catalogue system whose initial state is not empty and does not have
    two entries cannot be simulated: [simulate] raises the [ValueError] of
    the unpacking in [equations] (for a time-span end between [2^-1000] and
    [2^1000]). *)
Theorem simulate_wrong_dimension_raises :
  forall self : instance,
    reference_system self = true ->
    self.(initial_conditions) <> [] ->
    length self.(initial_conditions) <> 2 ->
    in_range self.(time_span) = true ->
    simulate np_sin odeint self = Raise ValueError.
Proof.
  intros self Href Hic Hlen Hts.
  apply simulate_first_evaluation; try assumption.
  unfold reference_system in Href. unfold equations.
  destruct (kind self); [discriminate Href | | |];
    destruct self.(initial_conditions) as [| a [| b [| z y]]];
    try reflexivity; cbn [length] in Hlen; lia.
Qed.

(** A pendulum of length zero or a rotating body of zero inertia, simulated
    from a state of two entries, makes [simulate] raise
    [ZeroDivisionError]. *)
Theorem simulate_zero_divisor_raises :
  forall (self : instance) (p q : float),
    self.(kind) = SimplePendulumModel p q \/
    self.(kind) = RotationalInertiaModel p q ->
    is_zero p = true ->
    length self.(initial_conditions) = 2 ->
    in_range self.(time_span) = true ->
    simulate np_sin odeint self = Raise ZeroDivisionError.
Proof.
  intros self p q Hkind Hp Hlen Hts.
  apply simulate_first_evaluation; try assumption.
  - intros H. rewrite H in Hlen. discriminate Hlen.
  - destruct self.(initial_conditions) as [| a [| b [| z y]]]; try discriminate Hlen.
    unfold equations. destruct Hkind as [-> | ->]; cbn [map];
      unfold py_truediv; rewrite Hp; reflexivity.
Qed.

(** Whatever the instance, a trajectory that [simulate] returns has 1000
    times, the last of them the time-span end itself, and 1000 states with
    as many entries each as the initial state. *)
Theorem simulate_shape :
  forall (self : instance) (times : list float) (states : list (list float)),
    simulate np_sin odeint self = Ok (times, states) ->
    length times = 1000 /\
    last times 0%float = self.(time_span) /\
    length states = 1000 /\
    Forall (fun row => length row = length self.(initial_conditions)) states.
Proof.
  intros self times states H.
  apply simulate_Ok_inv in H. destruct H as [Htimes Hsol].
  apply odeint_shape in Hsol. destruct Hsol as [Hrows Hcols].
  assert (Hlen : length times = 1000) by (subst times; apply length_linspace).
  split; [exact Hlen |]. split; [| split; [congruence | exact Hcols]].
  subst times. unfold linspace. change (1 <? 1000) with true. cbv iota.
  set (y := map _ _).
  assert (Hy : length y = 1000).
  { unfold y. rewrite length_map.
    change (0 <? pred 1000) with true. cbv iota.
    destruct (is_zero _); rewrite length_map; apply length_arange. }
  destruct y as [| a y]; [discriminate Hy |]. apply last_set_last.
Qed.

End SimulationErrors.

Lemma simulate_wrong_dimension_raises_witness :
  simulate sin_taylor euler_odeint
    {| initial_conditions := [1%float; 0%float; 0%float]; time_span := 20%float;
       kind := SpringMassDamperModel 1 0.5 2 |}
  = Raise ValueError.
Proof.
  apply (@simulate_wrong_dimension_raises sin_taylor euler_odeint
           euler_odeint_propagation);
    cbn [initial_conditions length]; try reflexivity; try discriminate.
Defined.

Lemma simulate_zero_divisor_raises_witness :
  simulate sin_taylor euler_odeint
    {| initial_conditions := [0%float; 0%float]; time_span := 20%float;
       kind := RotationalInertiaModel 0 1 |}
  = Raise ZeroDivisionError.
Proof.
  apply (@simulate_zero_divisor_raises sin_taylor euler_odeint
           euler_odeint_propagation _ 0%float 1%float);
    try reflexivity.
  right. reflexivity.
Defined.

Lemma simulate_shape_witness :
  length (fst (run simple_pendulum)) = 1000 /\
  last (fst (run simple_pendulum)) 0%float = 20%float /\
  length (snd (run simple_pendulum)) = 1000 /\
  Forall (fun row => length row = 2) (snd (run simple_pendulum)).
Proof.
  apply (@simulate_shape sin_taylor euler_odeint euler_odeint_shape simple_pendulum).
  apply run_spec. vm_compute. discriminate.
Defined.

(** ** Horizons that are not finite *)




(** ** Negative horizons *)

(** Rounding is symmetric: the operations on a negative operand give the
    opposite of what they give on its absolute value. *)
Module Binary64Signs.
Import Binary64 Binary64Facts.
Local Open Scope Z_scope.

Lemma binary_round_aux_opp (mx ex : Z) (lx : location) :
  binary_round_aux prec emax true mx ex lx
  = SFopp (binary_round_aux prec emax false mx ex lx).
Proof.
  unfold binary_round_aux.
  destruct (shr_fexp prec emax mx ex lx) as [mrs' e'].
  destruct (shr_fexp prec emax _ e' loc_Exact) as [mrs'' e''].
  destruct (shr_m mrs'') as [| m | m]; [reflexivity | | reflexivity].
  destruct (e'' <=? emax - prec); reflexivity.
Qed.

Lemma opp_involutive (x : float) : (- - x)%float = x.
Proof.
  apply Prim2SF_inj. rewrite !opp_spec.
  destruct (Prim2SF x) as [[|] | [|] | | [|] m e]; reflexivity.
Qed.

Lemma opp_normal (x : float) (m : positive) (e : Z) :
  normal_pos x m e -> Prim2SF (- x) = S754_finite true m e.
Proof. intros [Hx _]. rewrite opp_spec, Hx. reflexivity. Qed.

Lemma opp_sub_zero (x : float) (m : positive) (e : Z) :
  normal_pos x m e -> (- x - 0)%float = (- x)%float.
Proof.
  intros Hx. apply Prim2SF_inj. rewrite sub_spec, (opp_normal Hx). reflexivity.
Qed.

Lemma opp_add_zero (x : float) (m : positive) (e : Z) :
  normal_pos x m e -> (- x + 0)%float = (- x)%float.
Proof.
  intros Hx. apply Prim2SF_inj. rewrite add_spec, (opp_normal Hx). reflexivity.
Qed.

Lemma opp_is_zero (x : float) (m : positive) (e : Z) :
  normal_pos x m e -> (- x =? 0)%float = false.
Proof. intros Hx. rewrite eqb_spec, (opp_normal Hx). reflexivity. Qed.

Lemma opp_ltb_zero (x : float) (m : positive) (e : Z) :
  normal_pos x m e -> (- x <? 0)%float = true.
Proof. intros Hx. rewrite ltb_spec, (opp_normal Hx). reflexivity. Qed.

Lemma div_opp_normal (x y : float) (mx my : positive) (ex ey : Z) :
  normal_pos x mx ex -> normal_pos y my ey ->
  (- x / y)%float = (- (x / y))%float.
Proof.
  intros Hx [Hy _]. apply Prim2SF_inj.
  rewrite opp_spec, !div_spec, (opp_normal Hx), Hy.
  destruct Hx as [-> _]. unfold SF64div, SFdiv. cbn [xorb].
  destruct (SFdiv_core_binary prec emax (Zpos mx) ex (Zpos my) ey) as [[mz ez] lz].
  apply binary_round_aux_opp.
Qed.

Lemma mul_opp_normal (x y : float) (mx my : positive) (ex ey : Z) :
  normal_pos x mx ex -> normal_pos y my ey ->
  (x * - y)%float = (- (x * y))%float.
Proof.
  intros [Hx _] Hy. apply Prim2SF_inj.
  rewrite opp_spec, !mul_spec, (opp_normal Hy), Hx.
  destruct Hy as [-> _]. unfold SF64mul, SFmul. cbn [xorb].
  apply binary_round_aux_opp.
Qed.

Lemma zero_mul_opp_add_zero (x : float) (m : positive) (e : Z) :
  normal_pos x m e -> (0 * - x + 0)%float = 0%float.
Proof.
  intros Hx. apply Prim2SF_inj.
  rewrite add_spec, mul_spec, (opp_normal Hx). reflexivity.
Qed.

(** The order of two positive normal numbers is reversed by negation. *)
Lemma opp_ltb_normal (x y : float) (mx my : positive) (ex ey : Z) :
  normal_pos x mx ex -> normal_pos y my ey ->
  (x <? y)%float = true -> (- y <? - x)%float = true.
Proof.
  intros Hx Hy. rewrite !ltb_spec, (opp_normal Hx), (opp_normal Hy).
  destruct Hx as [-> _], Hy as [-> _].
  unfold SFltb, SFcompare.
  rewrite (Z.compare_antisym ex ey).
  destruct (ex ?= ey); cbn [CompOpp]; try discriminate; try reflexivity.
  rewrite (Pos.compare_cont_antisym my mx Eq). cbn [CompOpp].
  destruct (Pos.compare_cont Eq mx my); cbn [CompOpp]; try discriminate; reflexivity.
Qed.

End Binary64Signs.

Lemma strictly_decreasing_samples (F : nat -> float) (T : float) (n : nat) :
  forall a : nat,
    (forall i, a <= i -> S i < a + S n -> (F (S i) <? F i)%float = true) ->
    (T <? F (a + n)%nat)%float = true ->
    strictly_decreasing (map F (seq a (S n)) ++ [T]) = true.
Proof.
  induction n as [| n IH]; intros a Hstep Hlast.
  - cbn. rewrite Nat.add_0_r in Hlast. now rewrite Hlast.
  - change (seq a (S (S n))) with (a :: seq (S a) (S n)).
    cbn [map app]. cbn [strictly_decreasing].
    specialize (IH (S a)).
    change (seq (S a) (S n)) with (S a :: seq (S (S a)) n) in *.
    cbn [map app] in *.
    rewrite (Hstep a) by lia. cbn [andb].
    apply IH.
    + intros i Hi Hi'. apply Hstep; lia.
    + replace (S a + n) with (a + S n) by lia. exact Hlast.
Qed.

(** For a horizon [- T] with [T] between [2^-1000] and [2^1000] the grid
    starts at zero, ends at [- T] and is strictly decreasing. *)
Lemma linspace_negative (T : float) :
  in_range T = true ->
  nth 0 (linspace 0 (- T) 1000) 1%float = 0%float /\
  last (linspace 0 (- T) 1000) 0%float = (- T)%float /\
  strictly_decreasing (linspace 0 (- T) 1000) = true.
Proof.
  intros HT. unfold in_range in HT. apply andb_prop in HT. destruct HT as [Hlo Hhi].
  destruct (Binary64Facts.range_normal Hlo Hhi) as (mT & eT & HT & HeT).
  destruct (Binary64Facts.step_normal HT HeT) as (ms & es & Hs & Hes & _).
  assert (Hes' : (-1062 <= es <= 940)%Z) by lia.
  assert (H999 : Binary64.normal_pos (float_of_nat 999) 8787296929185792 (-43)).
  { split; [reflexivity |]. split; [cbv; discriminate | reflexivity]. }
  assert (Hstep : (- T / float_of_nat 999)%float = (- (T / float_of_nat 999))%float)
    by exact (Binary64Signs.div_opp_normal HT H999).
  rewrite (@linspace_samples (- T)%float (Binary64Signs.opp_sub_zero HT)).
  2:{ rewrite Hstep. exact (Binary64Signs.opp_is_zero Hs). }
  rewrite Hstep. set (s := (T / float_of_nat 999)%float) in *.
  (* sample [i] is the opposite of the sample [i * s] of the mirrored grid *)
  assert (Hmirror : forall i, (1 <= i <= 999)%nat ->
             (float_of_nat i * - s + 0)%float = (- (float_of_nat i * s + 0))%float).
  { intros i Hi.
    destruct (Binary64Facts.float_of_nat_normal Hi) as (mi & ei & Hfi & _).
    destruct (@Binary64Facts.product_normal s ms es i Hs Hes' Hi) as (m & e & Hp & _).
    rewrite (Binary64Signs.mul_opp_normal Hfi Hs).
    rewrite (Binary64Signs.opp_add_zero Hp), (Binary64Facts.add_zero_normal Hp).
    reflexivity. }
  split; [| split].
  - change (seq 0 999) with (0 :: seq 1 998). cbn [map app nth].
    change (float_of_nat 0) with 0%float.
    exact (Binary64Signs.zero_mul_opp_add_zero Hs).
  - apply last_last.
  - apply (@strictly_decreasing_samples
             (fun i => (float_of_nat i * - s + 0)%float) (- T)%float 998 0).
    + intros i _ Hi. destruct i as [| i].
      * change (float_of_nat 0) with 0%float.
        rewrite (Binary64Signs.zero_mul_opp_add_zero Hs), Hmirror by lia.
        destruct (@Binary64Facts.sample_normal s ms es 1 Hs Hes' ltac:(lia))
          as (m & e & Hy & _).
        exact (Binary64Signs.opp_ltb_zero Hy).
      * rewrite !Hmirror by lia.
        destruct (@Binary64Facts.sample_normal s ms es (S i) Hs Hes' ltac:(lia))
          as (ma & ea & Ha & _).
        destruct (@Binary64Facts.sample_normal s ms es (S (S i)) Hs Hes' ltac:(lia))
          as (mb & eb & Hb & _).
        apply (Binary64Signs.opp_ltb_normal Ha Hb).
        apply (Binary64Facts.sample_lt_next Hs Hes'). lia.
    + cbn [Nat.add]. rewrite Hmirror by lia.
      destruct (@Binary64Facts.sample_normal s ms es 998 Hs Hes' ltac:(lia))
        as (m & e & Hy & _).
      apply (Binary64Signs.opp_ltb_normal Hy HT).
      exact (Binary64Facts.sample_lt_stop HT HeT).
Qed.

(** A negative time span is accepted as well: when its absolute value lies
    between [2^-1000] and [2^1000], the times [simulate] returns start at 0,
    end at the (negative) time-span end and are strictly decreasing, so the
    system is integrated backwards in time. *)
Theorem simulate_backward_time_points :
  forall (np_sin : float -> float)
         (odeint : derivative -> list float -> list float -> result (list (list float)))
         (self : instance) (times : list float) (states : list (list float)),
    in_range (- self.(time_span)) = true ->
    simulate np_sin odeint self = Ok (times, states) ->
    nth 0 times 1%float = 0%float /\
    last times 0%float = self.(time_span) /\
    strictly_decreasing times = true.
Proof.
  intros np_sin odeint self times states HT H.
  apply simulate_Ok_inv in H. destruct H as [-> _].
  pose proof (linspace_negative _ HT) as Hneg.
  rewrite Binary64Signs.opp_involutive in Hneg. exact Hneg.
Qed.

Lemma simulate_backward_time_points_witness :
  nth 0 (fst (run backward_system)) 1%float = 0%float /\
  last (fst (run backward_system)) 0%float = (-20)%float /\
  strictly_decreasing (fst (run backward_system)) = true.
Proof.
  apply (@simulate_backward_time_points sin_taylor euler_odeint backward_system
           (fst (run backward_system)) (snd (run backward_system))).
  - reflexivity.
  - apply run_spec. vm_compute. discriminate.
Defined.

(** ** Rest states *)

(** Arithmetic on zeros, of either sign. *)
Module Binary64Zeros.

Lemma is_zero_iff (x : float) :
  is_zero x = true <-> exists s, Prim2SF x = S754_zero s.
Proof.
  unfold is_zero. rewrite eqb_spec.
  change (Prim2SF 0) with (S754_zero false).
  destruct (Prim2SF x) as [s | [|] | | [|] m e]; split;
    try discriminate; try (intros [s' H]; discriminate H).
  - intros _. now exists s.
  - reflexivity.
Qed.

Lemma finite_cases (x : float) :
  is_finite x = true ->
  (exists s, Prim2SF x = S754_zero s) \/ (exists s m e, Prim2SF x = S754_finite s m e).
Proof.
  unfold is_finite, is_nan, is_infinity.
  rewrite !eqb_spec, abs_spec.
  change (Prim2SF infinity) with (S754_infinity false).
  destruct (Prim2SF x) as [s | [|] | | s m e]; try discriminate.
  - intros _. left. now exists s.
  - intros _. right. now exists s, m, e.
Qed.

Lemma mul_zero_r (c x : float) :
  is_finite c = true -> is_zero x = true -> is_zero (c * x) = true.
Proof.
  intros Hc Hx. apply is_zero_iff in Hx. destruct Hx as [sx Hx].
  apply is_zero_iff. rewrite mul_spec, Hx.
  destruct (finite_cases c Hc) as [[s ->] | (s & m & e & ->)];
    eexists; reflexivity.
Qed.

Lemma opp_finite (c : float) : is_finite c = true -> is_finite (- c) = true.
Proof.
  intros Hc. unfold is_finite, is_nan, is_infinity.
  rewrite !eqb_spec, !abs_spec, !opp_spec.
  change (Prim2SF infinity) with (S754_infinity false).
  destruct (finite_cases c Hc) as [[s ->] | (s & m & e & ->)].
  - destruct s; reflexivity.
  - unfold SFeqb, SFcompare, SFabs, SFopp.
    rewrite Z.compare_refl, Pos.compare_cont_refl.
    destruct s; reflexivity.
Qed.

Lemma opp_zero (x : float) : is_zero x = true -> is_zero (- x) = true.
Proof.
  intros Hx. apply is_zero_iff in Hx. destruct Hx as [sx Hx].
  apply is_zero_iff. rewrite opp_spec, Hx. eexists; reflexivity.
Qed.

Lemma sub_zero_zero (x y : float) :
  is_zero x = true -> is_zero y = true -> is_zero (x - y) = true.
Proof.
  intros Hx Hy. apply is_zero_iff in Hx, Hy.
  destruct Hx as [sx Hx], Hy as [sy Hy].
  apply is_zero_iff. rewrite sub_spec, Hx, Hy.
  destruct sx, sy; eexists; reflexivity.
Qed.

Lemma div_zero_l (x m : float) :
  is_zero x = true -> is_finite m = true -> is_zero m = false ->
  is_zero (x / m) = true.
Proof.
  intros Hx Hm Hm0. apply is_zero_iff in Hx. destruct Hx as [sx Hx].
  apply is_zero_iff. rewrite div_spec, Hx.
  destruct (finite_cases m Hm) as [Hz | (s & mm & e & ->)].
  - apply is_zero_iff in Hz. rewrite Hz in Hm0. discriminate Hm0.
  - eexists; reflexivity.
Qed.

End Binary64Zeros.

(** The state of rest is an equilibrium of the spring-mass-damper: with
    finite [c], [k] and a finite nonzero [m], the derivative at a state whose
    position and velocity are zero is zero in both entries. *)
Theorem SpringMassDamper_rest_is_equilibrium :
  forall (np_sin : float -> float) (m c k : float) (ic : list float) (ts : float)
         (x v t : scalar),
    is_finite m = true -> is_zero m = false ->
    is_finite c = true -> is_finite k = true ->
    is_zero (value x) = true -> is_zero (value v) = true ->
    exists dxdt dvdt,
      equations np_sin {| initial_conditions := ic; time_span := ts;
                          kind := SpringMassDamperModel m c k |} [x; v] t
        = Ok [dxdt; dvdt] /\
      is_zero (value dxdt) = true /\ is_zero (value dvdt) = true.
Proof.
  intros np_sin m c k ic ts x v t Hm Hm0 Hc Hk Hx Hv.
  assert (Hz : is_zero ((- c * value v - k * value x) / m) = true).
  { apply Binary64Zeros.div_zero_l; try assumption.
    apply Binary64Zeros.sub_zero_zero; apply Binary64Zeros.mul_zero_r;
      try assumption.
    now apply Binary64Zeros.opp_finite. }
  unfold equations. cbn [kind].
  destruct x as [x | x], v as [v | v];
    cbn [py_neg py_mul py_sub py_truediv value bind] in *;
    rewrite ?Hm0; eexists; eexists; (split; [reflexivity |]);
    cbn [value]; split; assumption.
Qed.

Lemma SpringMassDamper_rest_is_equilibrium_witness :
  exists dxdt dvdt,
    equations sin_taylor
      {| initial_conditions := [0%float; 0%float]; time_span := 20%float;
         kind := SpringMassDamperModel 1 0.5 2 |}
      [NpFloat64 0; NpFloat64 0] (PyFloat 0)
      = Ok [dxdt; dvdt] /\
    is_zero (value dxdt) = true /\ is_zero (value dvdt) = true.
Proof.
  apply SpringMassDamper_rest_is_equilibrium; reflexivity.
Defined.

(** The pendulum hanging at rest is an equilibrium as well, for a sine that
    vanishes at the given angle zero and a finite quotient [g / l]. *)
Theorem SimplePendulum_rest_is_equilibrium :
  forall (np_sin : float -> float) (l g : float) (ic : list float) (ts : float)
         (theta omega t : scalar),
    is_zero l = false -> is_finite (g / l) = true ->
    is_zero (value theta) = true -> is_zero (value omega) = true ->
    is_zero (np_sin (value theta)) = true ->
    exists dthetadt domegadt,
      equations np_sin {| initial_conditions := ic; time_span := ts;
                          kind := SimplePendulumModel l g |} [theta; omega] t
        = Ok [dthetadt; domegadt] /\
      is_zero (value dthetadt) = true /\ is_zero (value domegadt) = true.
Proof.
  intros np_sin l g ic ts theta omega t Hl Hq Hth Hom Hsin.
  unfold equations. cbn [kind]. unfold py_truediv. rewrite Hl. cbn [bind].
  eexists; eexists. split; [reflexivity |]. split; [exact Hom |].
  cbn [py_neg py_mul value].
  apply Binary64Zeros.mul_zero_r; [| exact Hsin].
  now apply Binary64Zeros.opp_finite.
Qed.

Lemma SimplePendulum_rest_is_equilibrium_witness :
  exists dthetadt domegadt,
    equations sin_taylor
      {| initial_conditions := [0%float; 0%float]; time_span := 20%float;
         kind := SimplePendulumModel 1 0x1.39eb851eb851fp+3 |}
      [NpFloat64 0; NpFloat64 0] (PyFloat 0)
      = Ok [dthetadt; domegadt] /\
    is_zero (value dthetadt) = true /\ is_zero (value domegadt) = true.
Proof.
  apply SimplePendulum_rest_is_equilibrium; reflexivity.
Defined.

(** ** Plotting *)

Lemma column_Some (j : nat) (solution : list (list float)) :
  Forall (fun row => j < length row) solution ->
  column solution j = Some (map (fun row => nth j row 0%float) solution).
Proof.
  induction 1 as [| row rest Hrow _ IH]; [reflexivity |].
  cbn [column map]. rewrite IH.
  destruct (nth_error row j) as [x |] eqn:Hx.
  - now rewrite (nth_error_nth row j 0%float Hx).
  - apply nth_error_None in Hx. lia.
Qed.



Section Plotting.

Variable np_sin : float -> float.
Variable odeint : derivative -> list float -> list float -> result (list (list float)).

Hypothesis odeint_shape : shape_spec odeint.
Hypothesis odeint_first_row : first_row_spec odeint.

Lemma shows_app (log log' : list plt_call) :
  shows (log ++ log') = shows log + shows log'.
Proof. unfold shows. now rewrite filter_app, length_app. Qed.

(** What [plot_results] does once [simulate] has returned. *)
Lemma plot_results_after_simulate (system : instance) (title : String.string)
    (log : list plt_call) (times : list float) (states : list (list float)) :
  simulate np_sin odeint system = Ok (times, states) ->
  plot_results np_sin odeint system title log
  = match column states 0, column states 1 with
    | Some position, Some velocity =>
        (Returned tt, log ++ figure_calls times position velocity title)
    | _, _ => (Raised IndexError, log)
    end.
Proof.
  intros H. unfold plot_results, and_then, lift, getitem. rewrite H.
  cbn [fst snd].
  destruct (column states 0) as [position |]; [| reflexivity].
  destruct (column states 1) as [velocity |]; [| reflexivity].
  unfold call, figure_calls. rewrite <- !app_assoc. reflexivity.
Qed.

(** The two ways [plot_results] can end. *)
Lemma plot_results_cases (system : instance) (title : String.string)
    (log : list plt_call) :
  (exists e, plot_results np_sin odeint system title log = (Raised e, log)) \/
  (exists times position velocity,
      plot_results np_sin odeint system title log
      = (Returned tt, log ++ figure_calls times position velocity title)).
Proof.
  destruct (simulate np_sin odeint system) as [[times states] | e] eqn:H.
  - rewrite (plot_results_after_simulate system title log H).
    destruct (column states 0) as [position |]; [| left; now exists IndexError].
    destruct (column states 1) as [velocity |]; [| left; now exists IndexError].
    right. now exists times, position, velocity.
  - left. exists (Uncaught e).
    unfold plot_results, and_then, lift. rewrite H. reflexivity.
Qed.

(** An exception of [simulate] ends [plot_results] with that exception
    before any call on pyplot. *)
Theorem plot_results_propagates :
  forall (system : instance) (title : String.string) (log : list plt_call)
         (e : exception),
    simulate np_sin odeint system = Raise e ->
    plot_results np_sin odeint system title log = (Raised (Uncaught e), log).
Proof.
  intros system title log e H.
  unfold plot_results, and_then, lift. rewrite H. reflexivity.
Qed.

(** [plot_results] draws a whole figure or nothing: when it raises, the log
    of pyplot calls is as it was; when it returns, the log has grown by the
    thirteen calls of one figure, the last of which is the only
    [plt.show()]. *)
Theorem plot_results_all_or_nothing :
  forall (system : instance) (title : String.string) (log : list plt_call),
    match plot_results np_sin odeint system title log with
    | (Raised _, log') => log' = log
    | (Returned _, log') =>
        exists calls,
          log' = log ++ calls /\ length calls = 13 /\
          last calls plt_tight_layout = plt_show /\ shows calls = 1
    end.
Proof.
  intros system title log.
  destruct (simulate np_sin odeint system) as [[times states] | e] eqn:H.
  - rewrite (plot_results_after_simulate system title log H).
    destruct (column states 0) as [position |]; [| reflexivity].
    destruct (column states 1) as [velocity |]; [| reflexivity].
    exists (figure_calls times position velocity title). repeat split.
  - unfold plot_results, and_then, lift. rewrite H. reflexivity.
Qed.

(** For a system with at least two state entries whose simulation returns,
    [plot_results] returns after drawing one figure: positions are column 0
    and velocities column 1 of the states, each with one point per time,
    and the two curves start at the first two initial conditions. *)
Theorem plot_results_draws_columns :
  forall (system : instance) (title : String.string) (log : list plt_call)
         (times : list float) (states : list (list float))
         (a b : float) (rest : list float),
    simulate np_sin odeint system = Ok (times, states) ->
    system.(initial_conditions) = a :: b :: rest ->
    let position := map (fun row => nth 0 row 0%float) states in
    let velocity := map (fun row => nth 1 row 0%float) states in
    plot_results np_sin odeint system title log
      = (Returned tt, log ++ figure_calls times position velocity title) /\
    length position = length times /\ length velocity = length times /\
    nth 0 position 0%float = a /\ nth 0 velocity 0%float = b.
Proof.
  intros system title log times states a b rest H Hic position velocity.
  pose proof H as H'. apply simulate_Ok_inv in H'. destruct H' as [Htimes Hsol].
  assert (Hfirst : nth_error states 0 = Some system.(initial_conditions)).
  { apply (odeint_first_row Hsol). subst times.
    destruct (linspace_1000_cons system.(time_span)) as (t0 & ts' & -> & _).
    discriminate. }
  apply odeint_shape in Hsol. destruct Hsol as [Hrows Hcols].
  rewrite Hic in Hcols, Hfirst.
  rewrite (plot_results_after_simulate system title log H).
  rewrite (@column_Some 0 states), (@column_Some 1 states).
  - split; [reflexivity |]. unfold position, velocity. rewrite !length_map.
    split; [exact Hrows |]. split; [exact Hrows |].
    destruct states as [| row states']; [discriminate Hfirst |].
    injection Hfirst as ->. split; reflexivity.
  - eapply Forall_impl; [| exact Hcols]. cbn. intros row ->. cbn. lia.
  - eapply Forall_impl; [| exact Hcols]. cbn. intros row ->. cbn. lia.
Qed.


(** ** The test harness *)

Lemma run_tests_from_app (pairs pairs' : list (instance * String.string)) :
  forall log,
    run_tests_from np_sin odeint (pairs ++ pairs') log
    = and_then (run_tests_from np_sin odeint pairs)
               (fun _ => run_tests_from np_sin odeint pairs') log.
Proof.
  induction pairs as [| [system title] pairs IH]; intros log; [reflexivity |].
  cbn [app run_tests_from]. unfold and_then in *.
  destruct (plot_results np_sin odeint system title log) as [[[] | e] log1];
    [apply IH | reflexivity].
Qed.

(** A system added with [add_system] is plotted last: running the extended
    harness is running the old one and then, if that returned, plotting the
    new system; what the earlier systems drew or raised is unchanged. *)
Theorem run_tests_add_system :
  forall (self : harness) (system : instance) (title : String.string)
         (log : list plt_call),
    run_tests np_sin odeint (add_system self system title) log
    = and_then (run_tests np_sin odeint self)
               (fun _ => plot_results np_sin odeint system title) log.
Proof.
  intros self system title log. unfold run_tests, add_system. cbn [systems].
  rewrite run_tests_from_app. unfold and_then.
  destruct (run_tests_from np_sin odeint (systems self) log) as [[[] | e] log1];
    [| reflexivity].
  cbn [run_tests_from]. unfold and_then, done.
  destruct (plot_results np_sin odeint system title log1) as [[[] | e] log2];
    reflexivity.
Qed.

(** [run_tests] stops at the first system that cannot be plotted: its
    exception ends the run, the figures of the systems before it stay
    drawn, and the systems after it are never simulated or plotted. *)
Theorem run_tests_stops_at_first_failure :
  forall (before after : list (instance * String.string)) (system : instance)
         (title : String.string) (log log1 : list plt_call) (e : error),
    run_tests np_sin odeint {| systems := before |} log = (Returned tt, log1) ->
    fst (plot_results np_sin odeint system title log1) = Raised e ->
    run_tests np_sin odeint {| systems := before ++ (system, title) :: after |} log
    = (Raised e, log1).
Proof.
  intros before after system title log log1 e Hbefore Hfail.
  unfold run_tests in *. cbn [systems] in *.
  rewrite run_tests_from_app. unfold and_then. rewrite Hbefore.
  cbn [run_tests_from]. unfold and_then.
  destruct (plot_results_cases system title log1)
    as [(e' & Hp) | (times & position & velocity & Hp)];
    rewrite Hp in *; cbn [fst] in Hfail.
  - now injection Hfail as ->.
  - discriminate Hfail.
Qed.

(** A run that returns has shown exactly one figure per registered system;
    a run that raises has shown fewer figures than there are systems. *)
Theorem run_tests_one_figure_per_system :
  forall (self : harness) (log : list plt_call),
    match run_tests np_sin odeint self log with
    | (Returned _, log') => shows log' = shows log + length self.(systems)
    | (Raised _, log') => shows log' < shows log + length self.(systems)
    end.
Proof.
  intros [pairs]. unfold run_tests. cbn [systems].
  induction pairs as [| [system title] pairs IH]; intros log.
  - cbn. lia.
  - cbn [run_tests_from length]. unfold and_then.
    destruct (plot_results_cases system title log)
      as [(e' & Hp) | (times & position & velocity & Hp)]; rewrite Hp.
    + lia.
    + specialize (IH (log ++ figure_calls times position velocity title)).
      rewrite shows_app in IH. change (shows (figure_calls _ _ _ _)) with 1 in IH.
      destruct (run_tests_from np_sin odeint pairs _) as [[[] | e] log']; lia.
Qed.

(** The main script registers the three systems of the driver, in this
    order, and runs them. *)
Lemma main_runs_three_systems :
  main np_sin odeint
  = run_tests np_sin odeint
      {| systems := [ (spring_mass_damper, "Spring-Mass-Damper System"%string);
                      (simple_pendulum, "Simple Pendulum"%string);
                      (rotational_inertia, "Rotational Inertia System"%string) ] |}.
Proof. reflexivity. Qed.

End Plotting.

Lemma plot_results_propagates_witness :
  plot_results sin_taylor euler_odeint base_system "Base"%string []
  = (Raised (Uncaught NotImplementedError), []).
Proof.
  apply plot_results_propagates. reflexivity.
Defined.

Lemma plot_results_draws_columns_witness :
  plot_results sin_taylor euler_odeint spring_mass_damper
    "Spring-Mass-Damper System"%string []
    = (Returned tt,
       [] ++ figure_calls (fst (run spring_mass_damper))
               (map (fun row => nth 0 row 0%float) (snd (run spring_mass_damper)))
               (map (fun row => nth 1 row 0%float) (snd (run spring_mass_damper)))
               "Spring-Mass-Damper System"%string) /\
  length (map (fun row => nth 0 row 0%float) (snd (run spring_mass_damper)))
    = length (fst (run spring_mass_damper)) /\
  length (map (fun row => nth 1 row 0%float) (snd (run spring_mass_damper)))
    = length (fst (run spring_mass_damper)) /\
  nth 0 (map (fun row => nth 0 row 0%float) (snd (run spring_mass_damper))) 0%float
    = 1%float /\
  nth 0 (map (fun row => nth 1 row 0%float) (snd (run spring_mass_damper))) 0%float
    = 0%float.
Proof.
  apply (@plot_results_draws_columns sin_taylor euler_odeint euler_odeint_shape
           euler_odeint_first_row spring_mass_damper
           "Spring-Mass-Damper System"%string []
           (fst (run spring_mass_damper)) (snd (run spring_mass_damper))
           1%float 0%float []).
  - apply run_spec. vm_compute. discriminate.
  - reflexivity.
Defined.


Lemma run_tests_stops_at_first_failure_witness :
  run_tests sin_taylor euler_odeint
    {| systems := [(spring_mass_damper, "Spring-Mass-Damper System"%string)]
                  ++ (base_system, "Base"%string)
                  :: [(rotational_inertia, "Rotational Inertia System"%string)] |}
    []
  = (Raised (Uncaught NotImplementedError),
     snd (run_tests sin_taylor euler_odeint
            {| systems := [(spring_mass_damper, "Spring-Mass-Damper System"%string)] |}
            [])).
Proof.
  apply run_tests_stops_at_first_failure.
  - vm_compute. reflexivity.
  - vm_compute. reflexivity.
Defined.
